(** * caddy-maxmind-geolocation: the request matcher of [main.go]

    A shallow embedding of the matcher type [MaxmindGeolocation] and of its
    methods [checkAllowed], [Match], [UnmarshalCaddyfile], [CaddyModule],
    [Provision] and [Cleanup], and the properties of the admission decision,
    of the configuration and of the lifecycle proved over it.

    The matcher calls into three libraries whose code is not part of the
    module: Go's [net] package ([net.SplitHostPort], [net.ParseIP],
    [IP.String]), [ip2location] ([DB.Get_country_short]) and [zap] (the
    logger).  They are kept abstract, as the operations of the class
    [GoLibs]; every statement about [Match] holds for every instance.  The
    module [GoNet] instantiates the class once, with [net.SplitHostPort]
    written out, to run the matcher on concrete requests. *)

From Stdlib Require Import String Ascii List Bool Arith NArith DecimalString.
Import ListNotations.
Open Scope string_scope.

(** ** Data *)

(** [ip2location.IP2Locationrecord].  The matcher reads one field of the
    record, [Country_short]; the other fields are not represented. *)
Record IP2Locationrecord : Type := { Country_short : string }.

(** What the matcher imports.  A Go pointer is an [option]: [None] is [nil],
    so the types below are the types of what a non-nil pointer (or a non-nil
    [error], or a non-nil [net.IP]) stands for. *)
Class GoLibs : Type := {
  error : Type;
  IP : Type;
  DB : Type;
  Logger : Type;
  (** [net.SplitHostPort(hostport)]: host, port and the error, if any. *)
  SplitHostPort : string -> string * string * option error;
  (** [net.ParseIP(s)]: [None] is the nil [IP]. *)
  ParseIP : string -> option IP;
  (** [ip.String()]. *)
  IP_String : IP -> string;
  (** [db.Get_country_short(ipaddress)] on an open dataset. *)
  Get_country_short : DB -> string -> IP2Locationrecord * option error;
  (** [ip2location.OpenDB(dbpath)]: the handle comes back with or without
      an error. *)
  OpenDB : string -> option DB * option error;
  (** [cfg.Build()] of the configuration [NewLogger] sets up for a path. *)
  zap_Build : string -> option Logger * option error
}.

(** The pointer fields of the struct; a method reached through one of them
    while it is nil faults. *)
Inductive Pointer : Type := ptr_dbInst | ptr_logger.

Inductive outcome (A : Type) : Type :=
| Returns (a : A)
| Panics (p : Pointer).

Arguments Returns {A} a.
Arguments Panics {A} p.

Section Matcher.

Context {libs : GoLibs}.

(** The struct [MaxmindGeolocation]. *)
Record MaxmindGeolocation : Type := {
  DbPath : string;
  LogPath : string;
  AllowCountries : list string;
  DenyCountries : list string;
  dbInst : option DB;
  logger : option Logger
}.

(** [*http.Request]: the matcher reads [RemoteAddr] only. *)
Record Request : Type := { RemoteAddr : string }.

(** ** Effects *)

(** [zap.String(key, val)] and [zap.Error(err)]. *)
Inductive Field : Type :=
| zap_String (key val : string)
| zap_Error (err : error).

Inductive Level : Type := DebugLevel | WarnLevel.

(** What a method does to the world outside the struct: a query of the
    dataset, or an entry handed to the logger. *)
Inductive Event : Type :=
| Lookup (db : DB) (ipaddress : string)
| Log (lg : Logger) (lvl : Level) (msg : string) (fields : list Field).

(** A method with receiver [m *MaxmindGeolocation]: from the struct before
    the call to the outcome, the struct after the call and the events of
    the call, oldest first. *)
Definition M (A : Type) : Type :=
  MaxmindGeolocation -> outcome A * MaxmindGeolocation * list Event.

Definition ret {A : Type} (a : A) : M A :=
  fun m => (Returns a, m, []).

Definition bind {A B : Type} (c : M A) (k : A -> M B) : M B :=
  fun m =>
    match c m with
    | (Returns a, m1, t1) =>
        match k a m1 with
        | (o, m2, t2) => (o, m2, (t1 ++ t2)%list)
        end
    | (Panics p, m1, t1) => (Panics p, m1, t1)
    end.

(** Read a field of the receiver. *)
Definition field {A : Type} (f : MaxmindGeolocation -> A) : M A :=
  fun m => (Returns (f m), m, []).

(** Assign to the receiver. *)
Definition store (upd : MaxmindGeolocation -> MaxmindGeolocation) : M unit :=
  fun m => (Returns tt, upd m, []).

Definition emit (e : Event) : M unit :=
  fun m => (Returns tt, m, [e]).

Definition panic {A : Type} (p : Pointer) : M A :=
  fun m => (Panics p, m, []).

Declare Scope go_scope.
Delimit Scope go_scope with go.
Notation "x <- c ;; k" := (bind c (fun x => k))
  (at level 61, c at next level, right associativity) : go_scope.
Notation "c ;; k" := (bind c (fun _ => k))
  (at level 61, right associativity) : go_scope.
Open Scope go_scope.

(** The three components of a run. *)
Definition result {A : Type} (x : outcome A * MaxmindGeolocation * list Event)
  : outcome A := fst (fst x).
Definition final {A : Type} (x : outcome A * MaxmindGeolocation * list Event)
  : MaxmindGeolocation := snd (fst x).
Definition events {A : Type} (x : outcome A * MaxmindGeolocation * list Event)
  : list Event := snd x.

(** [p != nil]. *)
Definition not_nil {A : Type} (p : option A) : bool :=
  match p with Some _ => true | None => false end.

(** [if c { body }]. *)
Definition when (c : bool) (body : M unit) : M unit :=
  if c then body else ret tt.

(** [lg.Warn(msg, fields...)] and [lg.Debug(msg, fields...)] through a
    [*zap.Logger]. *)
Definition zap_log (lvl : Level) (lg : option Logger) (msg : string)
    (fields : list Field) : M unit :=
  match lg with
  | Some l => emit (Log l lvl msg fields)
  | None => panic ptr_logger
  end.

Definition Warn := zap_log WarnLevel.
Definition Debug := zap_log DebugLevel.

(** [db.Get_country_short(ipaddress)] through a [*ip2location.DB]. *)
Definition DB_Get_country_short (db : option DB) (ipaddress : string)
  : M (IP2Locationrecord * option error) :=
  match db with
  | Some d => emit (Lookup d ipaddress);; ret (Get_country_short d ipaddress)
  | None => panic ptr_dbInst
  end.

(** [for _, i := range l { body }], where [body] either returns a value from
    the enclosing function ([Some]) or falls through to the next element. *)
Fixpoint range {A R : Type} (l : list A) (body : A -> option R) : option R :=
  match l with
  | [] => None
  | i :: l' =>
      match body i with
      | Some v => Some v
      | None => range l' body
      end
  end.

(** ** The methods *)

(** [func (m *MaxmindGeolocation) checkAllowed(item, allowedList, deniedList)]. *)
Definition checkAllowed (item : string) (allowedList deniedList : list string)
  : M bool :=
  let item := if (item =? "") || (item =? "0") then "UNK" else item in
  if (0 <? List.length deniedList)%nat then
    match range deniedList (fun i => if i =? item then Some false else None) with
    | Some b => ret b
    | None => ret true
    end
  else if (0 <? List.length allowedList)%nat then
    match range allowedList (fun i => if i =? item then Some true else None) with
    | Some b => ret b
    | None => ret false
    end
  else ret true.

(** [func (m *MaxmindGeolocation) Match(r *http.Request) bool]. *)
Definition Match (r : Request) : M bool :=
  allow <- field AllowCountries;;
  deny <- field DenyCountries;;
  if ((List.length allow <? 1) && (List.length deny <? 1))%nat then ret true else
  match SplitHostPort (RemoteAddr r) with
  | (remoteIp, _, err) =>
    match err with
    | Some e =>
        lg <- field logger;;
        when (not_nil lg)
          (lg <- field logger;;
           Warn lg "cannot split IP address"
             [zap_String "address" (RemoteAddr r); zap_Error e])
    | None => ret tt
    end;;
    match ParseIP remoteIp with
    | None =>
        lg <- field logger;;
        when (not_nil lg)
          (lg <- field logger;;
           Warn lg "cannot parse IP address"
             [zap_String "address" (RemoteAddr r)]);;
        ret false
    | Some addr =>
        db <- field dbInst;;
        looked <- DB_Get_country_short db (IP_String addr);;
        match looked with
        | (record, Some e) =>
            lg <- field logger;;
            when (not_nil lg)
              (lg <- field logger;;
               Warn lg "cannot lookup IP address"
                 [zap_String "address" (RemoteAddr r); zap_Error e]);;
            ret false
        | (record, None) =>
            lg <- field logger;;
            when (not_nil lg)
              (lg <- field logger;;
               Debug lg "Detected ip2location data"
                 [zap_String "ip" (RemoteAddr r);
                  zap_String "country" (Country_short record)]);;
            allow <- field AllowCountries;;
            deny <- field DenyCountries;;
            allowed <- checkAllowed (Country_short record) allow deny;;
            if negb allowed then
              lg <- field logger;;
              when (not_nil lg)
                (lg <- field logger;;
                 Debug lg "Country not allowed"
                   [zap_String "country" (Country_short record)]);;
              ret false
            else ret true
        end
    end
  end.

(** [fmt.Errorf("cannot open log file %s: %v", path, err)] and
    [fmt.Errorf("cannot open database file %s: %v", path, err)]. *)
Inductive ProvisionError : Type :=
| cannot_open_log_file (path : string) (err : error)
| cannot_open_database_file (path : string) (err : error).

Definition set_logger (lg : option Logger) (m : MaxmindGeolocation)
  : MaxmindGeolocation :=
  {| DbPath := DbPath m; LogPath := LogPath m;
     AllowCountries := AllowCountries m; DenyCountries := DenyCountries m;
     dbInst := dbInst m; logger := lg |}.

Definition set_dbInst (db : option DB) (m : MaxmindGeolocation)
  : MaxmindGeolocation :=
  {| DbPath := DbPath m; LogPath := LogPath m;
     AllowCountries := AllowCountries m; DenyCountries := DenyCountries m;
     dbInst := db; logger := logger m |}.

(** [func NewLogger(logPath string)], which returns a [*zap.Logger] and an
    [error]. *)
Definition NewLogger (logPath : string) : option Logger * option error :=
  zap_Build logPath.

(** [func (m *MaxmindGeolocation) Provision(ctx caddy.Context) error]. *)
Definition Provision : M (option ProvisionError) :=
  logPath <- field LogPath;;
  failed <-
    (if negb (logPath =? "") then
       logPath <- field LogPath;;
       match NewLogger logPath with
       | (lg, err) =>
           store (set_logger lg);;
           match err with
           | Some e =>
               logPath <- field LogPath;;
               ret (Some (cannot_open_log_file logPath e))
           | None => ret None
           end
       end
     else ret None);;
  match failed with
  | Some e => ret (Some e)
  | None =>
      dbPath <- field DbPath;;
      match OpenDB dbPath with
      | (db, err) =>
          store (set_dbInst db);;
          match err with
          | Some e =>
              dbPath <- field DbPath;;
              ret (Some (cannot_open_database_file dbPath e))
          | None => ret None
          end
      end
  end.

(** ** Vocabulary of the statements *)

(** The country code the lists are searched for: the empty code and the
    code ["0"] stand for the unrecognised country, ["UNK"]. *)
Definition normalized (code : string) : string :=
  if (code =? "") || (code =? "0") then "UNK" else code.

(** The queries of the dataset among the events of a call. *)
Fixpoint lookups (t : list Event) : list (DB * string) :=
  match t with
  | [] => []
  | Lookup db ipaddress :: t' => (db, ipaddress) :: lookups t'
  | Log _ _ _ _ :: t' => lookups t'
  end.

(** The entries handed to a logger among the events of a call. *)
Fixpoint logs (t : list Event) : list (Level * string * list Field) :=
  match t with
  | [] => []
  | Lookup _ _ :: t' => logs t'
  | Log _ lvl msg fields :: t' => (lvl, msg, fields) :: logs t'
  end.

(** The host [Match] hands to [net.ParseIP]. *)
Definition remote_host (r : Request) : string :=
  fst (fst (SplitHostPort (RemoteAddr r))).

(** The matcher [m] with other lists. *)
Definition with_lists (allow deny : list string) (m : MaxmindGeolocation)
  : MaxmindGeolocation :=
  {| DbPath := DbPath m; LogPath := LogPath m;
     AllowCountries := allow; DenyCountries := deny;
     dbInst := dbInst m; logger := logger m |}.

(** ** Configuration and teardown *)

(** [fmt.Errorf("unexpected config parameter %s", d.Val())]. *)
Inductive UnmarshalError : Type :=
| unexpected_config_parameter (val : string).

Definition set_DbPath (path : string) (m : MaxmindGeolocation)
  : MaxmindGeolocation :=
  {| DbPath := path; LogPath := LogPath m;
     AllowCountries := AllowCountries m; DenyCountries := DenyCountries m;
     dbInst := dbInst m; logger := logger m |}.

Definition set_LogPath (path : string) (m : MaxmindGeolocation)
  : MaxmindGeolocation :=
  {| DbPath := DbPath m; LogPath := path;
     AllowCountries := AllowCountries m; DenyCountries := DenyCountries m;
     dbInst := dbInst m; logger := logger m |}.

Definition set_AllowCountries (l : list string) (m : MaxmindGeolocation)
  : MaxmindGeolocation :=
  {| DbPath := DbPath m; LogPath := LogPath m;
     AllowCountries := l; DenyCountries := DenyCountries m;
     dbInst := dbInst m; logger := logger m |}.

Definition set_DenyCountries (l : list string) (m : MaxmindGeolocation)
  : MaxmindGeolocation :=
  {| DbPath := DbPath m; LogPath := LogPath m;
     AllowCountries := AllowCountries m; DenyCountries := l;
     dbInst := dbInst m; logger := logger m |}.

(** A [*caddyfile.Dispenser], which is caddy's, as what it hands to the two
    loops of [UnmarshalCaddyfile]: for every [d.Next()] that succeeds, the
    tokens [d.Val()] at which [d.NextBlock(nesting)] succeeds, in turn. *)
Definition Dispenser : Type := list (list string).

(** The body of the inner loop at the token [val], with the local variable
    [current]: the new [current], or the error the method returns with. *)
Definition unmarshal_token (val : string) (current : nat)
  : M (UnmarshalError + nat) :=
  if val =? "db_path" then ret (inr 1)
  else if val =? "allow_countries" then ret (inr 2)
  else if val =? "deny_countries" then ret (inr 3)
  else if val =? "log_path" then ret (inr 4)
  else
    match current with
    | 1 => store (set_DbPath val);; ret (inr 0)
    | 2 =>
        allow <- field AllowCountries;;
        store (set_AllowCountries (allow ++ [val])%list);;
        ret (inr current)
    | 3 =>
        deny <- field DenyCountries;;
        store (set_DenyCountries (deny ++ [val])%list);;
        ret (inr current)
    | 4 => store (set_LogPath val);; ret (inr 0)
    | _ => ret (inl (unexpected_config_parameter val))
    end.

(** [for nesting := d.Nesting(); d.NextBlock(nesting); { ... }]. *)
Fixpoint unmarshal_block (vals : list string) (current : nat)
  : M (UnmarshalError + nat) :=
  match vals with
  | [] => ret (inr current)
  | val :: vals' =>
      next <- unmarshal_token val current;;
      match next with
      | inl e => ret (inl e)
      | inr current' => unmarshal_block vals' current'
      end
  end.

(** [for d.Next() { ... }]. *)
Fixpoint unmarshal_blocks (d : Dispenser) (current : nat)
  : M (option UnmarshalError) :=
  match d with
  | [] => ret None
  | vals :: d' =>
      next <- unmarshal_block vals current;;
      match next with
      | inl e => ret (Some e)
      | inr current' => unmarshal_blocks d' current'
      end
  end.

(** [func (m *MaxmindGeolocation) UnmarshalCaddyfile(d *caddyfile.Dispenser) error]. *)
Definition UnmarshalCaddyfile (d : Dispenser) : M (option UnmarshalError) :=
  unmarshal_blocks d 0.

(** [caddy.ModuleInfo], with the module built by [New]. *)
Record ModuleInfo : Type := {
  ID : string;
  New : unit -> MaxmindGeolocation
}.

(** [func (MaxmindGeolocation) CaddyModule() caddy.ModuleInfo]; the module
    of [new(MaxmindGeolocation)] has every field at its zero value. *)
Definition CaddyModule : ModuleInfo :=
  {| ID := "http.matchers.maxmind_geolocation";
     New := fun _ =>
       {| DbPath := ""; LogPath := "";
          AllowCountries := []; DenyCountries := [];
          dbInst := None; logger := None |} |}.



(** ** The configuration as its documentation describes it

    One block of parameters: [db_path] and [log_path] with a path,
    [allow_countries] and [deny_countries] with a list of countries. *)
Inductive Directive : Type :=
| db_path (path : string)
| log_path (path : string)
| allow_countries (countries : list string)
| deny_countries (countries : list string).

(** The four names of parameters. *)
Definition is_keyword (val : string) : bool :=
  (val =? "db_path") || (val =? "allow_countries") ||
  (val =? "deny_countries") || (val =? "log_path").

(** The tokens a parameter is written with. *)
Definition tokens (p : Directive) : list string :=
  match p with
  | db_path path => ["db_path"; path]
  | log_path path => ["log_path"; path]
  | allow_countries countries => "allow_countries" :: countries
  | deny_countries countries => "deny_countries" :: countries
  end.

(** The values of a parameter. *)
Definition values (p : Directive) : list string :=
  match p with
  | db_path path | log_path path => [path]
  | allow_countries countries | deny_countries countries => countries
  end.

(** What a parameter asks for. *)
Definition configure (m : MaxmindGeolocation) (p : Directive)
  : MaxmindGeolocation :=
  match p with
  | db_path path => set_DbPath path m
  | log_path path => set_LogPath path m
  | allow_countries countries =>
      set_AllowCountries (AllowCountries m ++ countries)%list m
  | deny_countries countries =>
      set_DenyCountries (DenyCountries m ++ countries)%list m
  end.

(** Whether a value may follow the parameters [ps] without a name of its
    own: after a list of countries it may, after a path or at the start it
    may not. *)
Definition open_list (ps : list Directive) : bool :=
  match List.last ps (db_path "") with
  | allow_countries _ | deny_countries _ => true
  | db_path _ | log_path _ => false
  end.

(** The value of [current] after the parameters [ps] were read, from its
    value before. *)
Definition current_after (current : nat) (ps : list Directive) : nat :=
  match ps with
  | [] => current
  | _ :: _ =>
      match List.last ps (db_path "") with
      | db_path _ | log_path _ => 0
      | allow_countries _ => 2
      | deny_countries _ => 3
      end
  end.

(** [m'] is [m] after values among the tokens [toks] were stored in it:
    the handles are those of [m], the lists are those of [m] with values
    added at the end, and a path is the one of [m] or a value. *)
Definition stored_from (toks : list string) (m m' : MaxmindGeolocation)
  : Prop :=
  dbInst m' = dbInst m /\ logger m' = logger m /\
  (exists added,
     AllowCountries m' = (AllowCountries m ++ added)%list /\
     forall c, In c added -> In c toks /\ is_keyword c = false) /\
  (exists added,
     DenyCountries m' = (DenyCountries m ++ added)%list /\
     forall c, In c added -> In c toks /\ is_keyword c = false) /\
  (DbPath m' = DbPath m \/
   In (DbPath m') toks /\ is_keyword (DbPath m') = false) /\
  (LogPath m' = LogPath m \/
   In (LogPath m') toks /\ is_keyword (LogPath m') = false).

End Matcher.

(** ** An instance of the libraries

    [net.SplitHostPort] as the Go standard library writes it, [net.ParseIP]
    for the dotted decimal notation (the text of an IPv6 address is not read
    by this instance), a dataset given as its lookup function, and a logger
    named by its output path. *)
Module GoNet.

(** The errors of the instance: [net.AddrError] and an error with a text. *)
Inductive go_error : Type :=
| AddrError (Err Addr : string)
| errors_New (text : string).

(** [s[lo:hi]]. *)
Definition slice (s : string) (lo hi : nat) : string :=
  substring lo (hi - lo) s.

(** [s[lo:]]. *)
Definition slice_from (s : string) (lo : nat) : string :=
  substring lo (String.length s - lo) s.

(** [bytealg.IndexByteString(s, c)]: the index of the first [c] in [s]. *)
Fixpoint IndexByteString (s : string) (c : ascii) : option nat :=
  match s with
  | EmptyString => None
  | String b s' =>
      if Ascii.eqb b c then Some 0
      else match IndexByteString s' c with
           | Some i => Some (S i)
           | None => None
           end
  end.

(** [last(s, b)]: the index of the last [b] in [s]. *)
Fixpoint last (s : string) (b : ascii) : option nat :=
  match s with
  | EmptyString => None
  | String c s' =>
      match last s' b with
      | Some i => Some (S i)
      | None => if Ascii.eqb c b then Some 0 else None
      end
  end.

Definition addrErr (addr why : string) : string * string * option go_error :=
  ("", "", Some (AddrError why addr)).

Definition missingPort : string := "missing port in address".
Definition tooManyColons : string := "too many colons in address".

(** [func SplitHostPort(hostport string) (host, port string, err error)]. *)
Definition SplitHostPort (hostport : string)
  : string * string * option go_error :=
  match last hostport ":" with
  | None => addrErr hostport missingPort
  | Some i =>
      let bracketed :=
        match String.get 0 hostport with
        | Some b => Ascii.eqb b "["
        | None => false
        end in
      let after (host : string) (j k : nat) :=
        if not_nil (IndexByteString (slice_from hostport j) "[") then
          addrErr hostport "unexpected '[' in address"
        else if not_nil (IndexByteString (slice_from hostport k) "]") then
          addrErr hostport "unexpected ']' in address"
        else (host, slice_from hostport (i + 1), None) in
      if bracketed then
        match IndexByteString hostport "]" with
        | None => addrErr hostport "missing ']' in address"
        | Some e =>
            if (e + 1 =? String.length hostport)%nat then
              addrErr hostport missingPort
            else if (e + 1 =? i)%nat then
              after (slice hostport 1 e) 1 (e + 1)
            else
              match String.get (e + 1) hostport with
              | Some ":"%char => addrErr hostport tooManyColons
              | _ => addrErr hostport missingPort
              end
        end
      else
        let host := slice hostport 0 i in
        if not_nil (IndexByteString host ":") then
          addrErr hostport tooManyColons
        else after host 0 0
  end.

(** [dtoi(s)]: the decimal number at the head of [s], the count of bytes
    read, and whether a number was read that stays below [big]. *)
Definition big : N := 0xFFFFFF.

Definition is_digit (c : ascii) : bool :=
  (N_of_ascii "0" <=? N_of_ascii c)%N && (N_of_ascii c <=? N_of_ascii "9")%N.

Fixpoint dtoi_from (s : string) (n : N) (i : nat) : N * nat * bool :=
  match s with
  | String c s' =>
      if is_digit c then
        let n := (n * 10 + (N_of_ascii c - N_of_ascii "0"))%N in
        if (big <=? n)%N then (big, i, false) else dtoi_from s' n (S i)
      else if (i =? 0)%nat then (0%N, 0, false) else (n, i, true)
  | EmptyString => if (i =? 0)%nat then (0%N, 0, false) else (n, i, true)
  end.

Definition dtoi (s : string) : N * nat * bool := dtoi_from s 0%N 0.

(** The loop of [parseIPv4]: [todo] octets are still to read, [i] have been
    read; the octets and what is left of the string. *)
Fixpoint parseIPv4_octets (todo i : nat) (s : string)
  : option (list N * string) :=
  match todo with
  | 0 => Some ([], s)
  | S todo' =>
      if (String.length s =? 0)%nat then None
      else
        let dotted :=
          if (0 <? i)%nat then
            match s with
            | String "."%char s' => Some s'
            | _ => None
            end
          else Some s in
        match dotted with
        | None => None
        | Some s =>
            match dtoi s with
            | (n, c, ok) =>
                if negb ok || (0xFF <? n)%N then None
                else
                  match parseIPv4_octets todo' (S i) (slice_from s c) with
                  | Some (p, s') => Some (n :: p, s')
                  | None => None
                  end
            end
        end
  end.

(** The four octets of an IPv4 address. *)
Definition IPv4 : Type := (N * N * N * N)%type.

(** [func parseIPv4(s string) IP]. *)
Definition parseIPv4 (s : string) : option IPv4 :=
  match parseIPv4_octets 4 0 s with
  | Some ([a; b; c; d], EmptyString) => Some (a, b, c, d)
  | _ => None
  end.

(** [func ParseIP(s string) IP]: the first dot or colon decides how the
    whole string is read; no reader for the colon notation here. *)
Fixpoint ParseIP_scan (rest s : string) : option IPv4 :=
  match rest with
  | EmptyString => None
  | String "."%char _ => parseIPv4 s
  | String ":"%char _ => None
  | String _ rest' => ParseIP_scan rest' s
  end.

Definition ParseIP (s : string) : option IPv4 := ParseIP_scan s s.

Definition uitoa (n : N) : string :=
  DecimalString.NilZero.string_of_uint (N.to_uint n).

(** [func (ip IP) String() string] on an IPv4 address. *)
Definition IP_String (ip : IPv4) : string :=
  match ip with
  | (a, b, c, d) =>
      uitoa a ++ "." ++ uitoa b ++ "." ++ uitoa c ++ "." ++ uitoa d
  end.

(** A dataset is what it answers. *)
Definition dataset : Type := string -> IP2Locationrecord * option go_error.

(** One path holds a dataset; opening any other fails, and the handle that
    comes back with the error answers nothing. *)
Definition sample (ipaddress : string) : IP2Locationrecord * option go_error :=
  if ipaddress =? "8.8.8.8" then ({| Country_short := "US" |}, None)
  else if ipaddress =? "1.0.0.1" then ({| Country_short := "AU" |}, None)
  else if ipaddress =? "114.114.114.114" then ({| Country_short := "CN" |}, None)
  else if ipaddress =? "10.0.0.1" then ({| Country_short := "" |}, None)
  else if ipaddress =? "192.168.0.1" then ({| Country_short := "0" |}, None)
  else if ipaddress =? "203.0.113.9" then
    ({| Country_short := "" |}, Some (errors_New "unexpected EOF"))
  else ({| Country_short := "-" |}, None).

Definition unopened (ipaddress : string) : IP2Locationrecord * option go_error :=
  ({| Country_short := "" |}, None).

Definition libs : GoLibs :=
  Build_GoLibs go_error IPv4 dataset string
    SplitHostPort ParseIP IP_String
    (fun db ipaddress => db ipaddress)
    (fun dbpath =>
       if dbpath =? "/srv/IP2LOCATION-LITE-DB1.BIN" then (Some sample, None)
       else (Some unopened, Some (errors_New "no such file or directory")))
    (fun logPath => (Some logPath, None)).

(** A provisioned matcher over the sample dataset, with or without a log
    path. *)
Definition matcher (allow deny : list string) (lg : option string)
  : @MaxmindGeolocation libs :=
  @Build_MaxmindGeolocation libs
    "/srv/IP2LOCATION-LITE-DB1.BIN"
    match lg with Some logPath => logPath | None => "" end
    allow deny (Some sample) lg.

(** A matcher as the configuration leaves it, before [Provision]. *)
Definition configured (allow deny : list string) (logPath : string)
  : @MaxmindGeolocation libs :=
  @Build_MaxmindGeolocation libs
    "/srv/IP2LOCATION-LITE-DB1.BIN" logPath allow deny None None.

Definition request (remoteAddr : string) : Request :=
  {| RemoteAddr := remoteAddr |}.

End GoNet.

(** ** A second instance: no log file can be created

    The libraries of [GoNet], except that building a logger fails for every
    path. *)
Module ReadOnly.

Definition libs : GoLibs :=
  Build_GoLibs GoNet.go_error GoNet.IPv4 GoNet.dataset string
    GoNet.SplitHostPort GoNet.ParseIP GoNet.IP_String
    (fun db ipaddress => db ipaddress)
    (fun dbpath => (Some GoNet.sample, None))
    (fun logPath => (None, Some (GoNet.errors_New "read-only file system"))).

(** A matcher as the configuration leaves it. *)
Definition configured (logPath : string) : @MaxmindGeolocation libs :=
  @Build_MaxmindGeolocation libs
    "/srv/IP2LOCATION-LITE-DB1.BIN" logPath ["US"] [] None None.

End ReadOnly.


(** * Properties *)

Section Decide.

Context {libs : GoLibs}.

Implicit Types (m : MaxmindGeolocation) (item : string).
Implicit Types (allow deny : list string).

(** A search loop of [checkAllowed] finds [item] exactly when [item] is an
    element of the list. *)
Lemma range_search (R : Type) (v : R) item (l : list string) :
  range l (fun i => if i =? item then Some v else None) =
  if in_dec string_dec item l then Some v else None.
Proof.
  induction l as [|i l IH]; simpl; [reflexivity|].
  destruct (String.eqb_spec i item) as [->|Hne].
  - destruct (string_dec item item); [reflexivity|congruence].
  - rewrite IH. destruct (string_dec i item); [congruence|].
    destruct (in_dec string_dec item l); reflexivity.
Qed.

(** [checkAllowed] returns, leaves the receiver alone and has no effect,
    and what it returns does not depend on the receiver. *)
Lemma checkAllowed_pure item allow deny :
  exists b : bool, forall m, checkAllowed item allow deny m = (Returns b, m, []).
Proof.
  unfold checkAllowed.
  destruct (0 <? List.length deny)%nat.
  - destruct (range deny _) as [b|]; eexists; reflexivity.
  - destruct (0 <? List.length allow)%nat.
    + destruct (range allow _) as [b|]; eexists; reflexivity.
    + eexists; reflexivity.
Qed.

(** With a deny list, the decision is the search of the deny list. *)
Lemma checkAllowed_denying item allow deny m :
  deny <> [] ->
  checkAllowed item allow deny m =
  (Returns (if in_dec string_dec (normalized item) deny then false else true),
   m, []).
Proof.
  intros Hd. unfold checkAllowed. fold (normalized item).
  destruct deny as [|d deny']; [congruence|].
  cbn [List.length Nat.ltb Nat.leb].
  rewrite range_search.
  destruct (in_dec string_dec (normalized item) (d :: deny')); reflexivity.
Qed.

(** Without a deny list and with an allow list, the decision is the search
    of the allow list. *)
Lemma checkAllowed_allowing item allow m :
  allow <> [] ->
  checkAllowed item allow [] m =
  (Returns (if in_dec string_dec (normalized item) allow then true else false),
   m, []).
Proof.
  intros Ha. unfold checkAllowed. fold (normalized item).
  destruct allow as [|a allow']; [congruence|].
  cbn [List.length Nat.ltb Nat.leb].
  rewrite range_search.
  destruct (in_dec string_dec (normalized item) (a :: allow')); reflexivity.
Qed.

Lemma checkAllowed_unconfigured item m :
  checkAllowed item [] [] m = (Returns true, m, []).
Proof. reflexivity. Qed.

(** C2.  With a non-empty deny list, [checkAllowed] returns [true] exactly
    when the normalized country code is not an element of the deny list and
    [false] exactly when it is; the allow list has no part in the call,
    whatever it holds. *)
Theorem checkAllowed_deny_list item allow deny m :
  deny <> [] ->
  (result (checkAllowed item allow deny m) = Returns true <->
   ~ In (normalized item) deny) /\
  (result (checkAllowed item allow deny m) = Returns false <->
   In (normalized item) deny) /\
  (forall allow',
     checkAllowed item allow' deny m = checkAllowed item allow deny m).
Proof.
  intros Hd. split; [|split].
  - rewrite checkAllowed_denying by assumption. unfold result; simpl.
    destruct (in_dec string_dec (normalized item) deny) as [Hin|Hout].
    + split; [discriminate|contradiction].
    + split; [intros _; assumption|reflexivity].
  - rewrite checkAllowed_denying by assumption. unfold result; simpl.
    destruct (in_dec string_dec (normalized item) deny) as [Hin|Hout].
    + split; [intros _; assumption|reflexivity].
    + split; [discriminate|contradiction].
  - intros allow'. rewrite !checkAllowed_denying by assumption. reflexivity.
Qed.

(** C3.  With an empty deny list and a non-empty allow list, [checkAllowed]
    returns [true] exactly when the normalized country code is equal, as a
    string, to an element of the allow list, and [false] otherwise. *)
Theorem checkAllowed_allow_list item allow m :
  allow <> [] ->
  (result (checkAllowed item allow [] m) = Returns true <->
   exists i, In i allow /\ i = normalized item) /\
  (result (checkAllowed item allow [] m) = Returns false <->
   forall i, In i allow -> i <> normalized item).
Proof.
  intros Ha. rewrite checkAllowed_allowing by assumption.
  unfold result; simpl.
  destruct (in_dec string_dec (normalized item) allow) as [Hin|Hout]; split.
  - split; [intros _; exists (normalized item); split; auto|reflexivity].
  - split; [discriminate|].
    intros Hall. exfalso. exact (Hall _ Hin eq_refl).
  - split; [discriminate|].
    intros [i [Hi ->]]. contradiction.
  - split; [|reflexivity].
    intros _ i Hi ->. contradiction.
Qed.

(** C4.  For every policy, [checkAllowed] on the empty string, on ["0"] and
    on ["UNK"] is the same call: same outcome, same receiver, same events. *)
Theorem checkAllowed_unknown_codes allow deny m :
  checkAllowed "" allow deny m = checkAllowed "UNK" allow deny m /\
  checkAllowed "0" allow deny m = checkAllowed "UNK" allow deny m /\
  normalized "" = "UNK" /\ normalized "0" = "UNK" /\ normalized "UNK" = "UNK".
Proof. repeat split; reflexivity. Qed.

(** C7.  Two policies whose allow lists have the same elements and whose
    deny lists have the same elements, in whatever order and however often,
    get the same decision from [checkAllowed]. *)
Theorem checkAllowed_same_elements item allow deny allow' deny' m :
  (forall c, In c allow <-> In c allow') ->
  (forall c, In c deny <-> In c deny') ->
  result (checkAllowed item allow' deny' m) =
  result (checkAllowed item allow deny m).
Proof.
  intros Ha Hd.
  assert (Hnil : forall l l' : list string,
             (forall c, In c l <-> In c l') -> l = [] -> l' = []).
  { intros l l' H ->. destruct l' as [|c l']; [reflexivity|].
    exfalso. apply (proj2 (H c)). left; reflexivity. }
  assert (Hmem : forall l l' : list string,
             (forall c, In c l <-> In c l') ->
             forall (c : string) (x y : bool),
               (if in_dec string_dec c l' then x else y) =
               (if in_dec string_dec c l then x else y)).
  { intros l l' H c x y.
    destruct (in_dec string_dec c l') as [H'|H'], (in_dec string_dec c l) as [H0|H0];
      try reflexivity; exfalso; apply H in H' || apply H in H0; contradiction. }
  destruct deny as [|d deny0].
  - rewrite (Hnil _ _ Hd eq_refl).
    destruct allow as [|a allow0].
    + rewrite (Hnil _ _ Ha eq_refl). reflexivity.
    + assert (Ha' : allow' <> []).
      { intros E. symmetry in Ha.
        pose proof (Hnil _ _ (fun c => Ha c) E). discriminate. }
      rewrite !checkAllowed_allowing by (assumption || discriminate).
      unfold result; cbn [fst]. f_equal. apply Hmem. assumption.
  - assert (Hd' : deny' <> []).
    { intros E.
      pose proof (Hnil deny' (d :: deny0) (fun c => iff_sym (Hd c)) E).
      discriminate. }
    rewrite !checkAllowed_denying by (assumption || discriminate).
    unfold result; cbn [fst]. f_equal. apply Hmem. assumption.
Qed.

(** The code searched for is never the empty string and never ["0"]. *)
Lemma normalized_not_blank item : normalized item <> "" /\ normalized item <> "0".
Proof.
  unfold normalized.
  destruct (String.eqb_spec item ""), (String.eqb_spec item "0"); cbn;
    split; congruence.
Qed.

(** X15.  The entries [""] and ["0"] of a list match no country, not even
    the unrecognised ones: a deny list made of them alone lets every code
    pass, and an allow list made of them alone, without deny list, lets
    none pass. *)
Theorem checkAllowed_blank_entries item allow deny m :
  (deny <> [] -> (forall c, In c deny -> c = "" \/ c = "0") ->
   result (checkAllowed item allow deny m) = Returns true) /\
  (allow <> [] -> (forall c, In c allow -> c = "" \/ c = "0") ->
   result (checkAllowed item allow [] m) = Returns false).
Proof.
  destruct (normalized_not_blank item) as [Hne H0].
  split; intros Hnil Hall.
  - rewrite checkAllowed_denying by assumption. unfold result; cbn [fst].
    destruct (in_dec string_dec (normalized item) deny) as [Hin|Hout];
      [|reflexivity].
    destruct (Hall _ Hin); contradiction.
  - rewrite checkAllowed_allowing by assumption. unfold result; cbn [fst].
    destruct (in_dec string_dec (normalized item) allow) as [Hin|Hout];
      [|reflexivity].
    destruct (Hall _ Hin); contradiction.
Qed.

(** X16.  Longer lists are stricter on the deny side and laxer on the allow
    side: a code that passes a deny list passes every non-empty list of
    some of its entries, and a code that passes an allow list (without deny
    list) passes every allow list that has its entries. *)
Theorem checkAllowed_monotone item allow allow' deny deny' m :
  (deny <> [] -> incl deny deny' ->
   result (checkAllowed item allow' deny' m) = Returns true ->
   result (checkAllowed item allow deny m) = Returns true) /\
  (allow <> [] -> incl allow allow' ->
   result (checkAllowed item allow [] m) = Returns true ->
   result (checkAllowed item allow' [] m) = Returns true).
Proof.
  split; intros Hnil Hincl.
  - assert (Hnil' : deny' <> []).
    { destruct deny as [|c deny0]; [congruence|].
      intros E. rewrite E in Hincl. exact (Hincl c (or_introl eq_refl)). }
    rewrite !checkAllowed_denying by assumption. unfold result; cbn [fst].
    destruct (in_dec string_dec (normalized item) deny') as [Hin'|Hout'];
      [discriminate|].
    destruct (in_dec string_dec (normalized item) deny) as [Hin|Hout];
      [|reflexivity].
    exfalso. apply Hout'. apply Hincl. assumption.
  - assert (Hnil' : allow' <> []).
    { destruct allow as [|c allow0]; [congruence|].
      intros E. rewrite E in Hincl. exact (Hincl c (or_introl eq_refl)). }
    rewrite !checkAllowed_allowing by assumption. unfold result; cbn [fst].
    destruct (in_dec string_dec (normalized item) allow) as [Hin|Hout];
      [|discriminate].
    destruct (in_dec string_dec (normalized item) allow') as [Hin'|Hout'];
      [reflexivity|].
    exfalso. apply Hout'. apply Hincl. assumption.
Qed.

End Decide.

Section Evaluate.

Context {libs : GoLibs}.

Implicit Types (m : MaxmindGeolocation) (r : Request).

(** The test that opens [Match] fails as soon as one list has an element. *)
Lemma configured_guard m :
  AllowCountries m <> [] \/ DenyCountries m <> [] ->
  ((List.length (AllowCountries m) <? 1)%nat &&
   (List.length (DenyCountries m) <? 1)%nat) = false.
Proof.
  destruct (AllowCountries m), (DenyCountries m); cbn; intros [H|H];
    reflexivity || contradiction.
Qed.

(** Unfold a run of [Match] down to the case analyses of its body. *)
Ltac run :=
  unfold result, final, events, remote_host;
  unfold Match, DB_Get_country_short, when, Warn, Debug, zap_log;
  unfold bind, field, emit, ret, panic;
  cbn [AllowCountries DenyCountries dbInst logger set_logger with_lists
       fst snd not_nil].

(** Decide the next case analysis of the run in the goal. *)
Ltac next_case :=
  match goal with
  | H : ?x = _ |- context [match ?x with _ => _ end] => rewrite H
  | H : ?x = _ |- context [not_nil ?x] => rewrite H
  | |- context [not_nil ?x] => let E := fresh "E" in destruct x eqn:E
  | |- context [checkAllowed ?i ?a ?d _] =>
      let b := fresh "b" in
      let Hb := fresh "Hb" in
      destruct (checkAllowed_pure i a d) as [b Hb]; rewrite ?Hb
  | |- context [match ?x with _ => _ end] =>
      lazymatch x with
      | context [match _ with _ => _ end] => fail
      | _ => let E := fresh "E" in destruct x eqn:E
      end
  end;
  cbn [AllowCountries DenyCountries dbInst logger set_logger with_lists
       fst snd not_nil negb app lookups logs].

(** Without lists, [Match] returns [true] at once. *)
Lemma Match_fast_accept m r :
  AllowCountries m = [] -> DenyCountries m = [] ->
  Match r m = (Returns true, m, []).
Proof. intros Ha Hd. run. rewrite Ha, Hd. reflexivity. Qed.

(** C1.  When the allow list and the deny list are both empty, [Match]
    returns [true] for every request, whatever its address string and
    whatever the libraries make of it, and the dataset is not queried. *)
Theorem Match_unconfigured m r :
  AllowCountries m = [] -> DenyCountries m = [] ->
  result (Match r m) = Returns true /\ lookups (events (Match r m)) = [].
Proof.
  intros Ha Hd. rewrite (Match_fast_accept m r Ha Hd). split; reflexivity.
Qed.

(** Past the opening test, a host that does not parse ends the call with
    [false] before the dataset is reached. *)
Lemma Match_parse_failure m r :
  AllowCountries m <> [] \/ DenyCountries m <> [] ->
  ParseIP (remote_host r) = None ->
  result (Match r m) = Returns false /\ lookups (events (Match r m)) = [].
Proof.
  intros Hcfg Hparse. revert Hparse. run.
  rewrite (configured_guard m Hcfg).
  destruct (SplitHostPort (RemoteAddr r)) as [[remoteIp port] err].
  cbn [fst]. intros ->.
  destruct err; repeat next_case; split; reflexivity.
Qed.

(** C5.  When a list is non-empty and the host taken from the address string
    does not parse as an IP address, [Match] returns [false] and the dataset
    is not queried. *)
Theorem Match_unparsed_host m r :
  AllowCountries m <> [] \/ DenyCountries m <> [] ->
  ParseIP (remote_host r) = None ->
  result (Match r m) = Returns false /\ lookups (events (Match r m)) = [].
Proof. exact (Match_parse_failure m r). Qed.

(** The run of [Match] when the dataset answers with an error: [false], the
    receiver as it was, and for events the warning of the split (if the
    split failed and there is a logger), the query, and the warning of the
    query (if there is a logger). *)
Lemma Match_lookup_failure m r addr db record e :
  AllowCountries m <> [] \/ DenyCountries m <> [] ->
  ParseIP (remote_host r) = Some addr ->
  dbInst m = Some db ->
  Get_country_short db (IP_String addr) = (record, Some e) ->
  Match r m =
  (Returns false, m,
   match snd (SplitHostPort (RemoteAddr r)), logger m with
   | Some e0, Some lg =>
       [Log lg WarnLevel "cannot split IP address"
          [zap_String "address" (RemoteAddr r); zap_Error e0]]
   | _, _ => []
   end ++
   Lookup db (IP_String addr) ::
   match logger m with
   | Some lg =>
       [Log lg WarnLevel "cannot lookup IP address"
          [zap_String "address" (RemoteAddr r); zap_Error e]]
   | None => []
   end)%list.
Proof.
  intros Hcfg Hparse Hdb Hget. revert Hparse. run.
  rewrite (configured_guard m Hcfg).
  destruct (SplitHostPort (RemoteAddr r)) as [[remoteIp port] err].
  cbn [fst snd]. intros ->.
  destruct err; repeat next_case; reflexivity.
Qed.

(** C6.  When a list is non-empty, the host parses, and the dataset answers
    the query with an error, [Match] returns [false]: the call returns a
    boolean, the error goes no further than the log.  The lists have no
    part in it: with any other lists, one of them non-empty, the call
    returns [false] again and has the same events. *)
Theorem Match_lookup_error m r addr db record e :
  AllowCountries m <> [] \/ DenyCountries m <> [] ->
  ParseIP (remote_host r) = Some addr ->
  dbInst m = Some db ->
  Get_country_short db (IP_String addr) = (record, Some e) ->
  result (Match r m) = Returns false /\
  (forall allow deny,
     allow <> [] \/ deny <> [] ->
     result (Match r (with_lists allow deny m)) = Returns false /\
     events (Match r (with_lists allow deny m)) = events (Match r m)).
Proof.
  intros Hcfg Hparse Hdb Hget.
  rewrite (Match_lookup_failure m r addr db record e Hcfg Hparse Hdb Hget).
  split; [reflexivity|].
  intros allow deny Hcfg'.
  rewrite (Match_lookup_failure (with_lists allow deny m) r addr db record e
             Hcfg' Hparse Hdb Hget).
  split; reflexivity.
Qed.

(** C8.  The outcome of [Match] is the same with a logger and without one,
    and so are the queries of the dataset.  Without a logger nothing is
    logged and no method is called through the nil logger; once the dataset
    handle is set, the call returns a boolean. *)
Theorem Match_logger_irrelevant m r (lg : Logger) :
  result (Match r (set_logger (Some lg) m)) =
  result (Match r (set_logger None m)) /\
  lookups (events (Match r (set_logger (Some lg) m))) =
  lookups (events (Match r (set_logger None m))) /\
  logs (events (Match r (set_logger None m))) = [] /\
  result (Match r (set_logger None m)) <> Panics ptr_logger /\
  (dbInst m <> None ->
   exists b, result (Match r (set_logger None m)) = Returns b).
Proof.
  split; [|split; [|split; [|split]]].
  - run. repeat next_case; reflexivity.
  - run. repeat next_case; reflexivity.
  - run. repeat next_case; reflexivity.
  - run. repeat next_case; discriminate.
  - intros Hdb. run.
    repeat next_case; (eexists; reflexivity) || contradiction.
Qed.

(** C9.  [Match] and [checkAllowed] leave the matcher as they found it: the
    struct after the call, with its lists, its dataset handle and its
    logger, is the struct before the call. *)
Theorem methods_preserve_matcher m r (item : string) (allow deny : list string) :
  final (Match r m) = m /\ final (checkAllowed item allow deny m) = m.
Proof.
  split.
  - run. repeat next_case; reflexivity.
  - destruct (checkAllowed_pure item allow deny) as [b Hb].
    rewrite Hb. reflexivity.
Qed.

(** C10.  Given of [net.SplitHostPort] that it returns the empty host with
    every error, and of [net.ParseIP] that it rejects the empty string: when
    a list is non-empty and the split of the address string fails, [Match]
    returns [false] and the dataset is not queried. *)
Theorem Match_split_failure m r (host port : string) (e : error) :
  (forall s h p e', SplitHostPort s = (h, p, Some e') -> h = "") ->
  ParseIP "" = None ->
  AllowCountries m <> [] \/ DenyCountries m <> [] ->
  SplitHostPort (RemoteAddr r) = (host, port, Some e) ->
  result (Match r m) = Returns false /\ lookups (events (Match r m)) = [].
Proof.
  intros Hsplit Hparse Hcfg Herr.
  apply Match_parse_failure; [assumption|].
  unfold remote_host. rewrite Herr. cbn [fst].
  rewrite (Hsplit _ _ _ _ Herr). assumption.
Qed.

(** The run of [Match] when the dataset answers: the decision is the one
    of [checkAllowed] on the country of the record. *)
Lemma Match_lookup_success m r addr db record :
  AllowCountries m <> [] \/ DenyCountries m <> [] ->
  ParseIP (remote_host r) = Some addr ->
  dbInst m = Some db ->
  Get_country_short db (IP_String addr) = (record, None) ->
  result (Match r m) =
    result (checkAllowed (Country_short record)
              (AllowCountries m) (DenyCountries m) m) /\
  lookups (events (Match r m)) = [(db, IP_String addr)].
Proof.
  intros Hcfg Hparse Hdb Hget. revert Hparse. run.
  rewrite (configured_guard m Hcfg).
  destruct (SplitHostPort (RemoteAddr r)) as [[remoteIp port] err].
  cbn [fst snd]. intros ->.
  destruct err; repeat next_case; split; try reflexivity;
    destruct b; reflexivity || discriminate.
Qed.

(** X10.  When a list is non-empty, the host parses, the dataset handle is
    set and the dataset answers without error, [Match] returns what
    [checkAllowed] returns for the country of the record and the two lists,
    and it has queried the dataset once, for the text [String()] gives of
    the parsed address. *)
Theorem Match_follows_checkAllowed m r addr db record :
  AllowCountries m <> [] \/ DenyCountries m <> [] ->
  ParseIP (remote_host r) = Some addr ->
  dbInst m = Some db ->
  Get_country_short db (IP_String addr) = (record, None) ->
  result (Match r m) =
    result (checkAllowed (Country_short record)
              (AllowCountries m) (DenyCountries m) m) /\
  lookups (events (Match r m)) = [(db, IP_String addr)].
Proof. exact (Match_lookup_success m r addr db record). Qed.

(** X11.  No admission without an answer of the dataset: when a list is
    non-empty and [Match] returns [true], the host has parsed, the dataset
    has answered the query for it without error, and [checkAllowed] has
    returned [true] for the country of the answer. *)
Theorem Match_admission m r :
  AllowCountries m <> [] \/ DenyCountries m <> [] ->
  result (Match r m) = Returns true ->
  exists addr db record,
    ParseIP (remote_host r) = Some addr /\ dbInst m = Some db /\
    Get_country_short db (IP_String addr) = (record, None) /\
    result (checkAllowed (Country_short record)
              (AllowCountries m) (DenyCountries m) m) = Returns true.
Proof.
  intros Hcfg.
  destruct (ParseIP (remote_host r)) as [addr|] eqn:Hparse.
  - destruct (dbInst m) as [db|] eqn:Hdb.
    + destruct (Get_country_short db (IP_String addr)) as [record [e|]] eqn:Hget.
      * rewrite (Match_lookup_failure m r addr db record e Hcfg Hparse Hdb Hget).
        discriminate.
      * destruct (Match_lookup_success m r addr db record Hcfg Hparse Hdb Hget)
          as [Hres _].
        rewrite Hres. intros Htrue.
        exists addr, db, record. repeat split; assumption.
    + revert Hparse. run. rewrite (configured_guard m Hcfg).
      destruct (SplitHostPort (RemoteAddr r)) as [[remoteIp port] err].
      cbn [fst snd]. intros ->.
      destruct err; repeat next_case; discriminate.
  - destruct (Match_parse_failure m r Hcfg Hparse) as [Hres _].
    rewrite Hres. discriminate.
Qed.

(** Either a list is non-empty or both are empty. *)
Lemma lists_cases m :
  (AllowCountries m <> [] \/ DenyCountries m <> []) \/
  (AllowCountries m = [] /\ DenyCountries m = []).
Proof.
  destruct (AllowCountries m); [|left; left; discriminate].
  destruct (DenyCountries m); [|left; right; discriminate].
  right. split; reflexivity.
Qed.

(** The run of [Match] that reaches the dataset call without a handle. *)
Lemma Match_nil_handle m r addr :
  AllowCountries m <> [] \/ DenyCountries m <> [] ->
  ParseIP (remote_host r) = Some addr ->
  dbInst m = None ->
  result (Match r m) = Panics ptr_dbInst /\
  lookups (events (Match r m)) = [].
Proof.
  intros Hcfg Hparse Hdb. revert Hparse. run.
  rewrite (configured_guard m Hcfg).
  destruct (SplitHostPort (RemoteAddr r)) as [[remoteIp port] err].
  cbn [fst snd]. intros ->.
  destruct err; repeat next_case; split; reflexivity.
Qed.

(** X12.  [Match] queries the dataset at most once in a call, and then
    through the handle of the matcher and for the text [String()] gives of
    the parsed host, not for the address string of the request. *)
Theorem Match_queries_once m r :
  lookups (events (Match r m)) = [] \/
  exists addr db,
    ParseIP (remote_host r) = Some addr /\ dbInst m = Some db /\
    lookups (events (Match r m)) = [(db, IP_String addr)].
Proof.
  destruct (lists_cases m) as [Hcfg|[Ha Hd]].
  2:{ left. rewrite (Match_fast_accept m r Ha Hd). reflexivity. }
  destruct (ParseIP (remote_host r)) as [addr|] eqn:Hparse.
  2:{ left. exact (proj2 (Match_parse_failure m r Hcfg Hparse)). }
  destruct (dbInst m) as [db|] eqn:Hdb.
  2:{ left. exact (proj2 (Match_nil_handle m r addr Hcfg Hparse Hdb)). }
  right. exists addr, db. split; [reflexivity|]. split; [reflexivity|].
  destruct (Get_country_short db (IP_String addr)) as [record [e|]] eqn:Hget.
  - rewrite (Match_lookup_failure m r addr db record e Hcfg Hparse Hdb Hget).
    unfold events; cbn [snd].
    destruct (snd (SplitHostPort (RemoteAddr r))), (logger m); reflexivity.
  - exact (proj2 (Match_lookup_success m r addr db record Hcfg Hparse Hdb Hget)).
Qed.

(** X13.  [Match] faults in one situation only: a list is non-empty, the
    host parses, and the dataset handle is nil; the fault is the call
    through that handle.  In every other situation it returns a boolean. *)
Theorem Match_panics_iff m r (p : Pointer) :
  result (Match r m) = Panics p <->
  p = ptr_dbInst /\
  (AllowCountries m <> [] \/ DenyCountries m <> []) /\
  dbInst m = None /\
  exists addr, ParseIP (remote_host r) = Some addr.
Proof.
  split.
  - destruct (lists_cases m) as [Hcfg|[Ha Hd]].
    2:{ rewrite (Match_fast_accept m r Ha Hd). discriminate. }
    destruct (ParseIP (remote_host r)) as [addr|] eqn:Hparse.
    2:{ rewrite (proj1 (Match_parse_failure m r Hcfg Hparse)). discriminate. }
    destruct (dbInst m) as [db|] eqn:Hdb.
    + destruct (Get_country_short db (IP_String addr)) as [record [e|]] eqn:Hget.
      * rewrite (Match_lookup_failure m r addr db record e Hcfg Hparse Hdb Hget).
        discriminate.
      * rewrite (proj1 (Match_lookup_success m r addr db record
                          Hcfg Hparse Hdb Hget)).
        destruct (checkAllowed_pure (Country_short record)
                    (AllowCountries m) (DenyCountries m)) as [b Hb].
        rewrite Hb. discriminate.
    + rewrite (proj1 (Match_nil_handle m r addr Hcfg Hparse Hdb)).
      intros H. inversion H.
      repeat split; try assumption. exists addr. reflexivity.
  - intros (-> & Hcfg & Hdb & addr & Hparse).
    exact (proj1 (Match_nil_handle m r addr Hcfg Hparse Hdb)).
Qed.

(** X14.  With a logger, no request is turned away in silence: when [Match]
    returns [false] the log of the call has an entry that says why, the
    warning that the address does not parse, the warning that the lookup
    failed, or the note that the country is not allowed. *)
Theorem Match_denial_logged m r (lg : Logger) :
  logger m = Some lg ->
  result (Match r m) = Returns false ->
  exists lvl msg fields,
    In (lvl, msg, fields) (logs (events (Match r m))) /\
    (lvl = WarnLevel /\ msg = "cannot parse IP address" \/
     lvl = WarnLevel /\ msg = "cannot lookup IP address" \/
     lvl = DebugLevel /\ msg = "Country not allowed").
Proof.
  intros Hlg. run.
  repeat next_case; intros Hres; try discriminate Hres;
    try (destruct b; discriminate);
    first
      [ solve [do 3 eexists; split; [left; reflexivity|auto]]
      | solve [do 3 eexists; split; [right; left; reflexivity|auto]]
      | solve [do 3 eexists; split; [right; right; left; reflexivity|auto]] ].
Qed.

(** With a dataset handle [Match] returns. *)
Lemma Match_returns_with_handle m r :
  dbInst m <> None -> exists b, result (Match r m) = Returns b.
Proof.
  intros Hdb. run.
  repeat next_case; (eexists; reflexivity) || contradiction.
Qed.

End Evaluate.

Section Configure.

Context {libs : GoLibs}.

Implicit Types (m : MaxmindGeolocation) (d : Dispenser).
Implicit Types (vals toks : list string) (val : string) (current : nat).

Lemma is_keyword_false val :
  is_keyword val = false ->
  (val =? "db_path") = false /\ (val =? "allow_countries") = false /\
  (val =? "deny_countries") = false /\ (val =? "log_path") = false.
Proof. unfold is_keyword. rewrite !orb_false_iff. tauto. Qed.

(** At a name the body sets [current], whatever it was, and nothing else. *)
Lemma unmarshal_token_name val current m :
  is_keyword val = true ->
  unmarshal_token val current m =
  (Returns (inr (if val =? "db_path" then 1
                 else if val =? "allow_countries" then 2
                 else if val =? "deny_countries" then 3 else 4)), m, []).
Proof.
  unfold is_keyword, unmarshal_token.
  destruct (val =? "db_path"), (val =? "allow_countries"),
    (val =? "deny_countries"), (val =? "log_path");
    reflexivity || discriminate.
Qed.

(** At a value the body stores it where [current] says, or fails. *)
Lemma unmarshal_token_value val current m :
  is_keyword val = false ->
  unmarshal_token val current m =
  match current with
  | 1 => (Returns (inr 0), set_DbPath val m, [])
  | 2 => (Returns (inr 2),
          set_AllowCountries (AllowCountries m ++ [val]) m, [])
  | 3 => (Returns (inr 3),
          set_DenyCountries (DenyCountries m ++ [val]) m, [])
  | 4 => (Returns (inr 0), set_LogPath val m, [])
  | _ => (Returns (inl (unexpected_config_parameter val)), m, [])
  end.
Proof.
  intros Hval. destruct (is_keyword_false val Hval) as (H1 & H2 & H3 & H4).
  unfold unmarshal_token. rewrite H1, H2, H3, H4.
  destruct current as [|[|[|[|[|c]]]]]; reflexivity.
Qed.

Lemma stored_from_refl toks m : stored_from toks m m.
Proof.
  unfold stored_from. repeat split; auto.
  - exists []. rewrite app_nil_r. split; [reflexivity|]. intros c [].
  - exists []. rewrite app_nil_r. split; [reflexivity|]. intros c [].
Qed.

Lemma stored_from_trans toks1 toks2 m m1 m2 :
  stored_from toks1 m m1 -> stored_from toks2 m1 m2 ->
  stored_from (toks1 ++ toks2) m m2.
Proof.
  intros (Hdb1 & Hlg1 & (a1 & Ha1 & Hin1) & (d1 & Hd1 & Hid1) & Hp1 & Hl1)
         (Hdb2 & Hlg2 & (a2 & Ha2 & Hin2) & (d2 & Hd2 & Hid2) & Hp2 & Hl2).
  unfold stored_from. split; [congruence|]. split; [congruence|].
  split; [|split; [|split]].
  - exists (a1 ++ a2)%list. rewrite Ha2, Ha1, app_assoc.
    split; [reflexivity|]. intros c Hc.
    apply in_app_or in Hc. destruct Hc as [Hc|Hc].
    + destruct (Hin1 c Hc). split; [apply in_or_app; left|]; assumption.
    + destruct (Hin2 c Hc). split; [apply in_or_app; right|]; assumption.
  - exists (d1 ++ d2)%list. rewrite Hd2, Hd1, app_assoc.
    split; [reflexivity|]. intros c Hc.
    apply in_app_or in Hc. destruct Hc as [Hc|Hc].
    + destruct (Hid1 c Hc). split; [apply in_or_app; left|]; assumption.
    + destruct (Hid2 c Hc). split; [apply in_or_app; right|]; assumption.
  - destruct Hp2 as [Hp2|[Hp2 Hk2]].
    + rewrite Hp2. destruct Hp1 as [Hp1|[Hp1 Hk1]]; [left; assumption|].
      right. split; [apply in_or_app; left|]; assumption.
    + right. split; [apply in_or_app; right|]; assumption.
  - destruct Hl2 as [Hl2|[Hl2 Hk2]].
    + rewrite Hl2. destruct Hl1 as [Hl1|[Hl1 Hk1]]; [left; assumption|].
      right. split; [apply in_or_app; left|]; assumption.
    + right. split; [apply in_or_app; right|]; assumption.
Qed.

(** One token: the body returns, logs and queries nothing, stores at most
    the token, and fails only at a value, without storing it. *)
Lemma unmarshal_token_frame val current m :
  exists next m',
    unmarshal_token val current m = (Returns next, m', []) /\
    stored_from [val] m m' /\
    (forall e, next = inl e ->
       e = unexpected_config_parameter val /\ is_keyword val = false /\
       m' = m).
Proof.
  destruct (is_keyword val) eqn:Hval.
  - rewrite (unmarshal_token_name val current m Hval).
    eexists; eexists. split; [reflexivity|].
    split; [apply stored_from_refl|]. intros e; discriminate.
  - rewrite (unmarshal_token_value val current m Hval).
    assert (Hone : forall c, In c [val] -> In c [val] /\ is_keyword c = false).
    { intros c [<-|[]]. split; [left; reflexivity|assumption]. }
    destruct current as [|[|[|[|[|c]]]]];
      eexists; eexists; (split; [reflexivity|]);
      (split; [|intros e He; inversion He; repeat split; assumption
                 || discriminate]);
      unfold stored_from; cbn;
      repeat split; auto;
      try (exists []; rewrite app_nil_r; split; [reflexivity|]; intros ? []);
      try (exists [val]; split; [reflexivity|exact Hone]);
      try (right; split; [left; reflexivity|assumption]).
Qed.

(** The inner loop over the tokens [vals]. *)
Lemma unmarshal_block_frame vals current m :
  exists next m',
    unmarshal_block vals current m = (Returns next, m', []) /\
    stored_from vals m m' /\
    (forall v, next = inl (unexpected_config_parameter v) ->
       In v vals /\ is_keyword v = false).
Proof.
  revert current m. induction vals as [|val vals IH]; intros current m.
  - exists (inr current), m. split; [reflexivity|].
    split; [apply stored_from_refl|]. intros v; discriminate.
  - destruct (unmarshal_token_frame val current m)
      as (next & m1 & Hrun & Hst & Herr).
    cbn [unmarshal_block]. unfold bind. rewrite Hrun.
    destruct next as [e|current'].
    + destruct (Herr e eq_refl) as (-> & Hval & ->).
      exists (inl (unexpected_config_parameter val)), m.
      split; [reflexivity|]. split.
      * apply (stored_from_trans [val] vals m m m);
          apply stored_from_refl.
      * intros v Hv. inversion Hv; subst v.
        split; [left; reflexivity|assumption].
    + destruct (IH current' m1) as (next & m2 & Hrun2 & Hst2 & Herr2).
      rewrite Hrun2. exists next, m2. split; [reflexivity|]. split.
      * exact (stored_from_trans [val] vals m m1 m2 Hst Hst2).
      * intros v Hv. destruct (Herr2 v Hv). split; [right|]; assumption.
Qed.

(** The outer loop over the blocks of [d]. *)
Lemma unmarshal_blocks_frame d current m :
  exists err m',
    unmarshal_blocks d current m = (Returns err, m', []) /\
    stored_from (concat d) m m' /\
    (forall v, err = Some (unexpected_config_parameter v) ->
       In v (concat d) /\ is_keyword v = false).
Proof.
  revert current m. induction d as [|vals d IH]; intros current m.
  - exists None, m. split; [reflexivity|].
    split; [apply stored_from_refl|]. intros v; discriminate.
  - destruct (unmarshal_block_frame vals current m)
      as (next & m1 & Hrun & Hst & Herr).
    cbn [unmarshal_blocks concat]. unfold bind. rewrite Hrun.
    destruct next as [e|current'].
    + exists (Some e), m1. split; [reflexivity|]. split.
      * apply (stored_from_trans vals (concat d) m m1 m1 Hst).
        apply stored_from_refl.
      * intros v Hv. inversion Hv; subst e.
        destruct (Herr v eq_refl). split; [apply in_or_app; left|]; assumption.
    + destruct (IH current' m1) as (err & m2 & Hrun2 & Hst2 & Herr2).
      rewrite Hrun2. exists err, m2. split; [reflexivity|]. split.
      * exact (stored_from_trans vals (concat d) m m1 m2 Hst Hst2).
      * intros v Hv. destruct (Herr2 v Hv).
        split; [apply in_or_app; right|]; assumption.
Qed.

(** A step of the receiver without events hands over to what follows. *)
Lemma bind_silent (A B : Type) (c : M A) (k : A -> M B) m a m1 :
  c m = (Returns a, m1, []) -> bind c k m = k a m1.
Proof.
  intros H. unfold bind. rewrite H.
  destruct (k a m1) as [[o m2] t2]. reflexivity.
Qed.

Lemma unmarshal_block_cons_name name vals current m :
  is_keyword name = true ->
  unmarshal_block (name :: vals) current m =
  unmarshal_block vals
    (if name =? "db_path" then 1
     else if name =? "allow_countries" then 2
     else if name =? "deny_countries" then 3 else 4) m.
Proof.
  intros H. cbn [unmarshal_block].
  rewrite (bind_silent _ _ _ _ _ _ _ (unmarshal_token_name name current m H)).
  reflexivity.
Qed.

(** The inner loop over [vals1 ++ vals2] is the loop over [vals1], and
    then, unless it failed, the loop over [vals2]. *)
Lemma unmarshal_block_app vals1 vals2 current m next m1 :
  unmarshal_block vals1 current m = (Returns next, m1, []) ->
  unmarshal_block (vals1 ++ vals2) current m =
  match next with
  | inl e => (Returns (inl e), m1, [])
  | inr current' => unmarshal_block vals2 current' m1
  end.
Proof.
  revert current m. induction vals1 as [|val vals1 IH]; intros current m.
  - cbn. intros H. inversion H. reflexivity.
  - destruct (unmarshal_token_frame val current m)
      as (nx & m0 & Hrun & _ & _).
    cbn [unmarshal_block app].
    rewrite !(bind_silent _ _ _ _ _ _ _ Hrun).
    destruct nx as [e|current'].
    + intros H. inversion H. reflexivity.
    + apply IH.
Qed.

(** The two loops see the tokens of the blocks one after the other. *)
Lemma unmarshal_blocks_concat d current m :
  unmarshal_blocks d current m =
  match unmarshal_block (concat d) current m with
  | (Returns (inl e), m', t) => (Returns (Some e), m', t)
  | (Returns (inr _), m', t) => (Returns None, m', t)
  | (Panics p, m', t) => (Panics p, m', t)
  end.
Proof.
  revert current m. induction d as [|vals d IH]; intros current m.
  - reflexivity.
  - destruct (unmarshal_block_frame vals current m)
      as (next & m1 & Hrun & _ & _).
    cbn [unmarshal_blocks concat].
    rewrite (bind_silent _ _ _ _ _ _ _ Hrun).
    rewrite (unmarshal_block_app vals (concat d) current m next m1 Hrun).
    destruct next as [e|current']; [reflexivity|apply IH].
Qed.

Lemma set_AllowCountries_same m : set_AllowCountries (AllowCountries m) m = m.
Proof. destruct m; reflexivity. Qed.

Lemma set_DenyCountries_same m : set_DenyCountries (DenyCountries m) m = m.
Proof. destruct m; reflexivity. Qed.

(** Values after [allow_countries] go to the end of the allow list. *)
Lemma unmarshal_block_allow (cs rest : list string) m :
  (forall c, In c cs -> is_keyword c = false) ->
  unmarshal_block (cs ++ rest) 2 m =
  unmarshal_block rest 2 (set_AllowCountries (AllowCountries m ++ cs) m).
Proof.
  revert m. induction cs as [|c cs IH]; intros m Hcs.
  - cbn [app]. rewrite app_nil_r, set_AllowCountries_same. reflexivity.
  - cbn [unmarshal_block app].
    rewrite (bind_silent _ _ _ _ _ _ _
               (unmarshal_token_value c 2 m (Hcs c (or_introl eq_refl)))).
    rewrite IH by (intros c' Hc'; apply Hcs; right; assumption).
    unfold set_AllowCountries; cbn. rewrite <- app_assoc. reflexivity.
Qed.

(** Values after [deny_countries] go to the end of the deny list. *)
Lemma unmarshal_block_deny (cs rest : list string) m :
  (forall c, In c cs -> is_keyword c = false) ->
  unmarshal_block (cs ++ rest) 3 m =
  unmarshal_block rest 3 (set_DenyCountries (DenyCountries m ++ cs) m).
Proof.
  revert m. induction cs as [|c cs IH]; intros m Hcs.
  - cbn [app]. rewrite app_nil_r, set_DenyCountries_same. reflexivity.
  - cbn [unmarshal_block app].
    rewrite (bind_silent _ _ _ _ _ _ _
               (unmarshal_token_value c 3 m (Hcs c (or_introl eq_refl)))).
    rewrite IH by (intros c' Hc'; apply Hcs; right; assumption).
    unfold set_DenyCountries; cbn. rewrite <- app_assoc. reflexivity.
Qed.

(** The tokens of one parameter. *)
Lemma unmarshal_block_directive (p : Directive) (rest : list string)
    current m :
  (forall v, In v (values p) -> is_keyword v = false) ->
  unmarshal_block (tokens p ++ rest) current m =
  unmarshal_block rest (current_after current [p]) (configure m p).
Proof.
  intros Hp. destruct p as [path|path|cs|cs]; cbn [tokens app].
  - rewrite unmarshal_block_cons_name by reflexivity. cbn [String.eqb Ascii.eqb Bool.eqb].
    cbn [unmarshal_block].
    rewrite (bind_silent _ _ _ _ _ _ _
               (unmarshal_token_value path 1 m (Hp path (or_introl eq_refl)))).
    reflexivity.
  - rewrite unmarshal_block_cons_name by reflexivity. cbn [String.eqb Ascii.eqb Bool.eqb].
    cbn [unmarshal_block].
    rewrite (bind_silent _ _ _ _ _ _ _
               (unmarshal_token_value path 4 m (Hp path (or_introl eq_refl)))).
    reflexivity.
  - rewrite unmarshal_block_cons_name by reflexivity. cbn [String.eqb Ascii.eqb Bool.eqb].
    apply unmarshal_block_allow. exact Hp.
  - rewrite unmarshal_block_cons_name by reflexivity. cbn [String.eqb Ascii.eqb Bool.eqb].
    apply unmarshal_block_deny. exact Hp.
Qed.

Lemma current_after_cons current (p : Directive) (ps : list Directive) :
  current_after current (p :: ps) = current_after (current_after current [p]) ps.
Proof. destruct ps as [|q ps]; [|destruct p]; reflexivity. Qed.

(** The tokens of a list of parameters. *)
Lemma unmarshal_block_directives (ps : list Directive) (rest : list string)
    current m :
  (forall p v, In p ps -> In v (values p) -> is_keyword v = false) ->
  unmarshal_block (concat (map tokens ps) ++ rest) current m =
  unmarshal_block rest (current_after current ps) (fold_left configure ps m).
Proof.
  revert current m. induction ps as [|p ps IH]; intros current m Hps.
  - reflexivity.
  - cbn [map concat fold_left]. rewrite <- app_assoc.
    rewrite unmarshal_block_directive
      by (intros v Hv; exact (Hps p v (or_introl eq_refl) Hv)).
    rewrite IH by (intros q v Hq Hv; exact (Hps q v (or_intror Hq) Hv)).
    rewrite <- current_after_cons. reflexivity.
Qed.

Lemma UnmarshalCaddyfile_concat d m :
  UnmarshalCaddyfile d m =
  match unmarshal_block (concat d) 0 m with
  | (Returns (inl e), m', t) => (Returns (Some e), m', t)
  | (Returns (inr _), m', t) => (Returns None, m', t)
  | (Panics p, m', t) => (Panics p, m', t)
  end.
Proof. apply unmarshal_blocks_concat. Qed.

(** Without the name [allow_countries] nothing reaches the allow list. *)
Lemma unmarshal_block_no_allow vals current m next m' :
  ~ In "allow_countries" vals -> current <> 2 ->
  unmarshal_block vals current m = (Returns next, m', []) ->
  AllowCountries m' = AllowCountries m.
Proof.
  revert current m. induction vals as [|val vals IH]; intros current m Hno Hc.
  - cbn. intros H. inversion H. reflexivity.
  - assert (Hval : val <> "allow_countries").
    { intros ->. apply Hno. left; reflexivity. }
    assert (Hno' : ~ In "allow_countries" vals).
    { intros H. apply Hno. right; assumption. }
    cbn [unmarshal_block].
    destruct (is_keyword val) eqn:Hk.
    + rewrite (bind_silent _ _ _ _ _ _ _ (unmarshal_token_name val current m Hk)).
      apply IH; [assumption|].
      destruct (String.eqb_spec val "db_path"); [discriminate|].
      destruct (String.eqb_spec val "allow_countries"); [contradiction|].
      destruct (val =? "deny_countries"); discriminate.
    + pose proof (unmarshal_token_value val current m Hk) as Hv.
      destruct current as [|[|[|[|[|c]]]]];
        try (exfalso; apply Hc; reflexivity);
        rewrite (bind_silent _ _ _ _ _ _ _ Hv);
        try (intros H; inversion H; reflexivity);
        intros H; apply IH in H; try assumption; try discriminate;
        rewrite H; reflexivity.
Qed.

(** Without the name [deny_countries] nothing reaches the deny list. *)
Lemma unmarshal_block_no_deny vals current m next m' :
  ~ In "deny_countries" vals -> current <> 3 ->
  unmarshal_block vals current m = (Returns next, m', []) ->
  DenyCountries m' = DenyCountries m.
Proof.
  revert current m. induction vals as [|val vals IH]; intros current m Hno Hc.
  - cbn. intros H. inversion H. reflexivity.
  - assert (Hval : val <> "deny_countries").
    { intros ->. apply Hno. left; reflexivity. }
    assert (Hno' : ~ In "deny_countries" vals).
    { intros H. apply Hno. right; assumption. }
    cbn [unmarshal_block].
    destruct (is_keyword val) eqn:Hk.
    + rewrite (bind_silent _ _ _ _ _ _ _ (unmarshal_token_name val current m Hk)).
      apply IH; [assumption|].
      destruct (String.eqb_spec val "db_path"); [discriminate|].
      destruct (String.eqb_spec val "allow_countries"); [discriminate|].
      destruct (String.eqb_spec val "deny_countries"); [contradiction|].
      discriminate.
    + pose proof (unmarshal_token_value val current m Hk) as Hv.
      destruct current as [|[|[|[|[|c]]]]];
        try (exfalso; apply Hc; reflexivity);
        rewrite (bind_silent _ _ _ _ _ _ _ Hv);
        try (intros H; inversion H; reflexivity);
        intros H; apply IH in H; try assumption; try discriminate;
        rewrite H; reflexivity.
Qed.

(** X1.  [UnmarshalCaddyfile] returns for every dispenser, with or without
    an error, and logs and queries nothing.  It leaves the dataset handle
    and the logger alone, and what the two lists held before the call is
    still there afterwards, in front of what the call added. *)
Theorem UnmarshalCaddyfile_appends d m :
  exists err m' allow deny,
    UnmarshalCaddyfile d m = (Returns err, m', []) /\
    AllowCountries m' = (AllowCountries m ++ allow)%list /\
    DenyCountries m' = (DenyCountries m ++ deny)%list /\
    dbInst m' = dbInst m /\ logger m' = logger m.
Proof.
  destruct (unmarshal_blocks_frame d 0 m)
    as (err & m' & Hrun & (Hdb & Hlg & (a & Ha & _) & (dd & Hd & _) & _) & _).
  exists err, m', a, dd. repeat split; assumption.
Qed.

(** X2.  What [UnmarshalCaddyfile] stores is a token of the dispenser that
    is none of the four parameter names: every country of the lists after
    the call was there before or is such a token, and each path is the one
    from before or such a token. *)
Theorem UnmarshalCaddyfile_stores_values d m :
  (forall c, In c (AllowCountries (final (UnmarshalCaddyfile d m))) ->
     In c (AllowCountries m) \/ In c (concat d) /\ is_keyword c = false) /\
  (forall c, In c (DenyCountries (final (UnmarshalCaddyfile d m))) ->
     In c (DenyCountries m) \/ In c (concat d) /\ is_keyword c = false) /\
  (DbPath (final (UnmarshalCaddyfile d m)) = DbPath m \/
   In (DbPath (final (UnmarshalCaddyfile d m))) (concat d) /\
   is_keyword (DbPath (final (UnmarshalCaddyfile d m))) = false) /\
  (LogPath (final (UnmarshalCaddyfile d m)) = LogPath m \/
   In (LogPath (final (UnmarshalCaddyfile d m))) (concat d) /\
   is_keyword (LogPath (final (UnmarshalCaddyfile d m))) = false).
Proof.
  destruct (unmarshal_blocks_frame d 0 m)
    as (err & m' & Hrun &
        (_ & _ & (a & Ha & Hina) & (dd & Hd & Hind) & Hp & Hl) & _).
  unfold UnmarshalCaddyfile, final. rewrite Hrun. cbn [fst snd].
  split; [|split; [|split; assumption]].
  - intros c Hc. rewrite Ha in Hc. apply in_app_or in Hc.
    destruct Hc as [Hc|Hc]; [left; assumption|right; exact (Hina c Hc)].
  - intros c Hc. rewrite Hd in Hc. apply in_app_or in Hc.
    destruct Hc as [Hc|Hc]; [left; assumption|right; exact (Hind c Hc)].
Qed.

(** X3.  The error of [UnmarshalCaddyfile] names a token of the dispenser
    that is none of the four parameter names. *)
Theorem UnmarshalCaddyfile_error_token d m val :
  result (UnmarshalCaddyfile d m) =
    Returns (Some (unexpected_config_parameter val)) ->
  In val (concat d) /\ is_keyword val = false.
Proof.
  destruct (unmarshal_blocks_frame d 0 m) as (err & m' & Hrun & _ & Herr).
  unfold UnmarshalCaddyfile, result. rewrite Hrun. cbn [fst].
  intros H. inversion H. apply Herr. assumption.
Qed.

(** X4.  A dispenser whose tokens write a list of parameters, each name
    followed by its path or its countries, none of them a parameter name:
    [UnmarshalCaddyfile] returns without error and has configured the
    parameters one after the other, a path replacing the path, countries
    going to the end of their list. *)
Theorem UnmarshalCaddyfile_reads_parameters d (ps : list Directive) m :
  concat d = concat (map tokens ps) ->
  (forall p v, In p ps -> In v (values p) -> is_keyword v = false) ->
  UnmarshalCaddyfile d m = (Returns None, fold_left configure ps m, []).
Proof.
  intros Hd Hps. rewrite UnmarshalCaddyfile_concat, Hd.
  rewrite <- (app_nil_r (concat (map tokens ps))).
  rewrite unmarshal_block_directives by assumption. reflexivity.
Qed.

(** X5.  A value that follows a path, or that comes first: after parameters
    that do not end in a list of countries, a token that is no parameter
    name makes [UnmarshalCaddyfile] return the error that names it; the
    parameters before it stay configured and nothing after it is read. *)
Theorem UnmarshalCaddyfile_stray_value d (ps : list Directive) val
    (rest : list string) m :
  concat d = (concat (map tokens ps) ++ val :: rest)%list ->
  (forall p v, In p ps -> In v (values p) -> is_keyword v = false) ->
  open_list ps = false ->
  is_keyword val = false ->
  UnmarshalCaddyfile d m =
  (Returns (Some (unexpected_config_parameter val)),
   fold_left configure ps m, []).
Proof.
  intros Hd Hps Hopen Hval. rewrite UnmarshalCaddyfile_concat, Hd.
  rewrite unmarshal_block_directives by assumption.
  assert (Hc : current_after 0 ps = 0).
  { unfold current_after, open_list in *.
    destruct ps as [|p ps]; [reflexivity|].
    destruct (List.last (p :: ps) (db_path "")); reflexivity || discriminate. }
  rewrite Hc. cbn [unmarshal_block].
  rewrite (bind_silent _ _ _ _ _ _ _
             (unmarshal_token_value val 0 (fold_left configure ps m) Hval)).
  reflexivity.
Qed.

(** X6.  Parameter names without values are accepted: when every token of
    the dispenser is a parameter name, [UnmarshalCaddyfile] returns without
    error and the matcher is as it was. *)
Theorem UnmarshalCaddyfile_names_only d m :
  (forall val, In val (concat d) -> is_keyword val = true) ->
  UnmarshalCaddyfile d m = (Returns None, m, []).
Proof.
  intros Hd. rewrite UnmarshalCaddyfile_concat.
  generalize 0 as current. revert Hd.
  induction (concat d) as [|val vals IH]; intros Hd current.
  - reflexivity.
  - rewrite unmarshal_block_cons_name by (apply Hd; left; reflexivity).
    apply IH. intros v Hv. apply Hd. right; assumption.
Qed.

(** X7.  A list is fed under its name only: when the token
    [allow_countries] does not occur in the dispenser the allow list is
    after [UnmarshalCaddyfile] what it was before, and likewise the deny
    list without the token [deny_countries]. *)
Theorem UnmarshalCaddyfile_list_needs_name d m :
  (~ In "allow_countries" (concat d) ->
   AllowCountries (final (UnmarshalCaddyfile d m)) = AllowCountries m) /\
  (~ In "deny_countries" (concat d) ->
   DenyCountries (final (UnmarshalCaddyfile d m)) = DenyCountries m).
Proof.
  destruct (unmarshal_block_frame (concat d) 0 m)
    as (next & m' & Hrun & _ & _).
  rewrite UnmarshalCaddyfile_concat, Hrun. unfold final.
  split; intros Hno.
  - rewrite <- (unmarshal_block_no_allow (concat d) 0 m next m' Hno
                  ltac:(discriminate) Hrun).
    destruct next; reflexivity.
  - rewrite <- (unmarshal_block_no_deny (concat d) 0 m next m' Hno
                  ltac:(discriminate) Hrun).
    destruct next; reflexivity.
Qed.

(** X8.  The module [New] builds, configured from a dispenser in which
    neither [allow_countries] nor [deny_countries] occurs, admits every
    request, whether [UnmarshalCaddyfile] returned an error or not: [Match]
    returns [true] at once, without query and without log entry. *)
Theorem unlisted_module_admits d (r : Request) :
  ~ In "allow_countries" (concat d) ->
  ~ In "deny_countries" (concat d) ->
  Match r (final (UnmarshalCaddyfile d (New CaddyModule tt))) =
  (Returns true, final (UnmarshalCaddyfile d (New CaddyModule tt)), []).
Proof.
  intros Ha Hd.
  destruct (unmarshal_block_frame (concat d) 0 (New CaddyModule tt))
    as (next & m' & Hrun & _ & _).
  assert (Hfinal : final (UnmarshalCaddyfile d (New CaddyModule tt)) = m').
  { rewrite UnmarshalCaddyfile_concat, Hrun. destruct next; reflexivity. }
  rewrite Hfinal. apply Match_fast_accept.
  - rewrite (unmarshal_block_no_allow (concat d) 0 _ next m' Ha
               ltac:(discriminate) Hrun). reflexivity.
  - rewrite (unmarshal_block_no_deny (concat d) 0 _ next m' Hd
               ltac:(discriminate) Hrun). reflexivity.
Qed.

(** X9.  Reading stops at the error, and a configuration can be cut in
    front of a parameter name: when [UnmarshalCaddyfile] fails on [d1] it
    does the same on [d1] followed by anything; when it succeeds on [d1]
    and the tokens of [d2] start with a parameter name, reading [d1]
    followed by [d2] is reading [d1] and then, in a second call, [d2]. *)
Theorem UnmarshalCaddyfile_splits d1 d2 m :
  (forall e, result (UnmarshalCaddyfile d1 m) = Returns (Some e) ->
     UnmarshalCaddyfile (d1 ++ d2)%list m = UnmarshalCaddyfile d1 m) /\
  (forall name rest,
     result (UnmarshalCaddyfile d1 m) = Returns None ->
     concat d2 = name :: rest -> is_keyword name = true ->
     UnmarshalCaddyfile (d1 ++ d2)%list m =
     UnmarshalCaddyfile d2 (final (UnmarshalCaddyfile d1 m))).
Proof.
  destruct (unmarshal_block_frame (concat d1) 0 m)
    as (next & m1 & Hrun & _ & _).
  rewrite !UnmarshalCaddyfile_concat, concat_app.
  rewrite (unmarshal_block_app (concat d1) (concat d2) 0 m next m1 Hrun).
  rewrite Hrun. unfold result, final. cbn [fst snd].
  split.
  - intros e. destruct next as [e'|c]; [reflexivity|discriminate].
  - intros name rest. destruct next as [e'|c]; [discriminate|].
    intros _ Hd2 Hname. cbn [fst snd]. rewrite Hd2.
    rewrite !unmarshal_block_cons_name by assumption. reflexivity.
Qed.

End Configure.

Section Lifecycle.

Context {libs : GoLibs}.

Implicit Types (m : MaxmindGeolocation).

(** The run of [Provision], by the answers of the two libraries. *)
Lemma Provision_run m :
  Provision m =
  if LogPath m =? "" then
    match OpenDB (DbPath m) with
    | (db, Some e) =>
        (Returns (Some (cannot_open_database_file (DbPath m) e)),
         set_dbInst db m, [])
    | (db, None) => (Returns None, set_dbInst db m, [])
    end
  else
    match NewLogger (LogPath m) with
    | (lg, Some e) =>
        (Returns (Some (cannot_open_log_file (LogPath m) e)),
         set_logger lg m, [])
    | (lg, None) =>
        match OpenDB (DbPath m) with
        | (db, Some e) =>
            (Returns (Some (cannot_open_database_file (DbPath m) e)),
             set_dbInst db (set_logger lg m), [])
        | (db, None) => (Returns None, set_dbInst db (set_logger lg m), [])
        end
    end.
Proof.
  unfold Provision, bind, field, store, ret.
  destruct (LogPath m =? ""); cbn.
  - destruct (OpenDB (DbPath m)) as [db [e|]]; reflexivity.
  - destruct (NewLogger (LogPath m)) as [lg [e|]]; cbn; [reflexivity|].
    destruct (OpenDB (DbPath m)) as [db [e|]]; reflexivity.
Qed.

(** X17.  [Provision] returns, with or without an error, and neither
    queries the dataset nor logs.  It assigns to the logger and to the
    dataset handle only: the two paths and the two lists are after the call
    what they were before. *)
Theorem Provision_keeps_configuration m :
  exists err m',
    Provision m = (Returns err, m', []) /\
    DbPath m' = DbPath m /\ LogPath m' = LogPath m /\
    AllowCountries m' = AllowCountries m /\
    DenyCountries m' = DenyCountries m.
Proof.
  rewrite Provision_run.
  destruct (LogPath m =? "");
    [|destruct (NewLogger (LogPath m)) as [lg [e|]]];
    try destruct (OpenDB (DbPath m)) as [db [e'|]];
    eexists; eexists; (split; [reflexivity|]); repeat split.
Qed.


(** X19.  [Provision] returns without error exactly when the logger, if a
    log path is set, and the dataset both open without error. *)
Theorem Provision_succeeds_iff m :
  result (Provision m) = Returns None <->
  (LogPath m = "" \/ snd (NewLogger (LogPath m)) = None) /\
  snd (OpenDB (DbPath m)) = None.
Proof.
  rewrite Provision_run.
  destruct (String.eqb_spec (LogPath m) "") as [Hp|Hp].
  - destruct (OpenDB (DbPath m)) as [db [e|]]; unfold result; cbn; split.
    + discriminate.
    + intros [_ H]; discriminate.
    + intros _. split; [left; assumption|reflexivity].
    + reflexivity.
  - destruct (NewLogger (LogPath m)) as [lg [e|]]; cbn [snd].
    + unfold result; cbn. split; [discriminate|].
      intros [[H|H] _]; [contradiction|discriminate].
    + destruct (OpenDB (DbPath m)) as [db [e|]]; unfold result; cbn; split.
      * discriminate.
      * intros [_ H]; discriminate.
      * intros _. split; [right|]; reflexivity.
      * reflexivity.
Qed.

(** X20.  After a [Provision] that returned without error, on a dataset
    that [OpenDB] opened with a handle, [Match] returns a boolean for every
    request: it does not fault. *)
Theorem Provision_then_Match m (r : Request) :
  result (Provision m) = Returns None ->
  fst (OpenDB (DbPath m)) <> None ->
  exists b, result (Match r (final (Provision m))) = Returns b.
Proof.
  intros Hok Hdb. apply Match_returns_with_handle.
  revert Hok. rewrite Provision_run.
  destruct (LogPath m =? "");
    [|destruct (NewLogger (LogPath m)) as [lg [e|]]];
    try destruct (OpenDB (DbPath m)) as [db [e'|]];
    unfold result, final; cbn; intros Hok;
    discriminate Hok || exact Hdb.
Qed.


End Lifecycle.

(** * The instance at work *)

Section Runs.

#[local] Existing Instance GoNet.libs.

Import GoNet.

(** Every error of [SplitHostPort] comes with the empty host. *)
Lemma SplitHostPort_error_host (s h p : string) (e : go_error) :
  GoNet.SplitHostPort s = (h, p, Some e) -> h = "".
Proof.
  unfold GoNet.SplitHostPort, addrErr.
  repeat match goal with
         | |- context [match ?x with _ => _ end] => destruct x
         end;
    intros H; inversion H; reflexivity.
Qed.

(** [ParseIP] finds neither dot nor colon in the empty string. *)
Lemma ParseIP_empty : GoNet.ParseIP "" = None.
Proof. reflexivity. Qed.

(** A split that succeeds returns a host without colon, or the inside of a
    pair of brackets. *)
Example SplitHostPort_runs :
  GoNet.SplitHostPort "8.8.8.8:443" = ("8.8.8.8", "443", None) /\
  GoNet.SplitHostPort "[2001:db8::1]:443" = ("2001:db8::1", "443", None) /\
  GoNet.SplitHostPort "8.8.8.8" =
    ("", "", Some (AddrError "missing port in address" "8.8.8.8")) /\
  GoNet.SplitHostPort "2001:db8::1" =
    ("", "", Some (AddrError "too many colons in address" "2001:db8::1")).
Proof. repeat split; reflexivity. Qed.

Example ParseIP_runs :
  GoNet.ParseIP "8.8.8.8" = Some (8, 8, 8, 8)%N /\
  GoNet.ParseIP "256.0.0.1" = None /\
  GoNet.ParseIP "8.8.8" = None /\
  GoNet.ParseIP "not-an-address" = None /\
  GoNet.IP_String (114, 114, 114, 114)%N = "114.114.114.114".
Proof. repeat split; reflexivity. Qed.

(** The scenarios of the decision: an allowed country, a country outside
    the allow list, a denied country, and an unrecognised country allowed
    as ["UNK"]. *)
Example Match_scenarios :
  result (Match (request "8.8.8.8:443") (matcher ["US"] [] None)) =
    Returns true /\
  result (Match (request "1.0.0.1:443") (matcher ["US"] [] None)) =
    Returns false /\
  result (Match (request "114.114.114.114:443") (matcher [] ["CN"] None)) =
    Returns false /\
  result (Match (request "10.0.0.1:443") (matcher ["UNK"] [] None)) =
    Returns true /\
  result (Match (request "192.168.0.1:443") (matcher ["US"] ["UNK"] None)) =
    Returns false.
Proof. repeat split; reflexivity. Qed.

(** The lists are searched for the very string: neither another case, nor
    a prefix, nor a longer string is found in them. *)
Example checkAllowed_exact :
  result (checkAllowed "US" ["US"] [] (matcher ["US"] [] None)) = Returns true /\
  result (checkAllowed "us" ["US"] [] (matcher ["US"] [] None)) = Returns false /\
  result (checkAllowed "U" ["US"] [] (matcher ["US"] [] None)) = Returns false /\
  result (checkAllowed "USA" ["US"] [] (matcher ["US"] [] None)) = Returns false /\
  result (checkAllowed "unk" ["UNK"] [] (matcher ["UNK"] [] None)) = Returns false /\
  result (checkAllowed "" ["UNK"] [] (matcher ["UNK"] [] None)) = Returns true.
Proof. repeat split; reflexivity. Qed.

(** An address that is no address: [false], and two warnings in the log. *)
Example Match_not_an_address :
  result (Match (request "not-an-address") (matcher ["US"] [] (Some "geo.log")))
    = Returns false /\
  logs (events (Match (request "not-an-address")
                  (matcher ["US"] [] (Some "geo.log")))) =
    [(WarnLevel, "cannot split IP address",
      [zap_String "address" "not-an-address";
       zap_Error (AddrError "missing port in address" "not-an-address")]);
     (WarnLevel, "cannot parse IP address",
      [zap_String "address" "not-an-address"])].
Proof. split; reflexivity. Qed.

(** An address of an allowed country, but without port: the split fails
    and the request is turned away. *)
Example Match_bare_address :
  result (Match (request "8.8.8.8") (matcher ["US"] [] None)) = Returns false.
Proof. reflexivity. Qed.

(** [Provision] is a method that does assign to the receiver; a matcher
    on which [Match] would fault is one on which it returns afterwards. *)
Example Provision_assigns :
  result (Provision (configured ["US"] [] "geo.log")) = Returns None /\
  final (Provision (configured ["US"] [] "geo.log")) =
    matcher ["US"] [] (Some "geo.log") /\
  final (Provision (configured ["US"] [] "geo.log")) <>
    configured ["US"] [] "geo.log" /\
  result (Match (request "8.8.8.8:443") (configured ["US"] [] "geo.log")) =
    Panics ptr_dbInst /\
  result (Match (request "8.8.8.8:443")
            (final (Provision (configured ["US"] [] "geo.log")))) =
    Returns true.
Proof.
  split; [reflexivity|]. split; [reflexivity|].
  split; [|split; reflexivity].
  intros H. apply (f_equal (@dbInst _)) in H. discriminate H.
Qed.

(** ** The statements above at concrete matchers and requests *)

Lemma Match_unconfigured_witness :
  AllowCountries (matcher [] [] None) = [] /\
  DenyCountries (matcher [] [] None) = [] /\
  result (Match (request "not-an-address") (matcher [] [] None)) =
    Returns true /\
  lookups (events (Match (request "not-an-address") (matcher [] [] None))) = [].
Proof.
  split; [reflexivity|]. split; [reflexivity|].
  apply (Match_unconfigured (matcher [] [] None) (request "not-an-address"));
    reflexivity.
Defined.

Lemma checkAllowed_deny_list_witness :
  ["CN"; "RU"] <> [] /\
  (result (checkAllowed "CN" ["CN"] ["CN"; "RU"] (matcher ["CN"] ["CN"; "RU"] None))
     = Returns true <-> ~ In (normalized "CN") ["CN"; "RU"]) /\
  (result (checkAllowed "CN" ["CN"] ["CN"; "RU"] (matcher ["CN"] ["CN"; "RU"] None))
     = Returns false <-> In (normalized "CN") ["CN"; "RU"]) /\
  (forall allow',
     checkAllowed "CN" allow' ["CN"; "RU"] (matcher ["CN"] ["CN"; "RU"] None) =
     checkAllowed "CN" ["CN"] ["CN"; "RU"] (matcher ["CN"] ["CN"; "RU"] None)).
Proof.
  split; [discriminate|].
  apply (checkAllowed_deny_list "CN" ["CN"] ["CN"; "RU"]
           (matcher ["CN"] ["CN"; "RU"] None)).
  discriminate.
Defined.

Lemma checkAllowed_allow_list_witness :
  ["US"; "UNK"] <> [] /\
  (result (checkAllowed "0" ["US"; "UNK"] [] (matcher ["US"; "UNK"] [] None))
     = Returns true <->
   exists i, In i ["US"; "UNK"] /\ i = normalized "0") /\
  (result (checkAllowed "0" ["US"; "UNK"] [] (matcher ["US"; "UNK"] [] None))
     = Returns false <->
   forall i, In i ["US"; "UNK"] -> i <> normalized "0").
Proof.
  split; [discriminate|].
  apply (checkAllowed_allow_list "0" ["US"; "UNK"]
           (matcher ["US"; "UNK"] [] None)).
  discriminate.
Defined.

Lemma checkAllowed_same_elements_witness :
  (forall c, In c ["US"; "CA"] <-> In c ["CA"; "US"; "CA"]) /\
  (forall c, In c (@nil string) <-> In c (@nil string)) /\
  result (checkAllowed "CA" ["CA"; "US"; "CA"] [] (matcher ["US"; "CA"] [] None)) =
  result (checkAllowed "CA" ["US"; "CA"] [] (matcher ["US"; "CA"] [] None)).
Proof.
  assert (Ha : forall c, In c ["US"; "CA"] <-> In c ["CA"; "US"; "CA"]).
  { intros c. simpl. tauto. }
  assert (Hd : forall c, In c (@nil string) <-> In c (@nil string)).
  { intros c. tauto. }
  split; [exact Ha|]. split; [exact Hd|].
  exact (checkAllowed_same_elements "CA" ["US"; "CA"] [] ["CA"; "US"; "CA"] []
           (matcher ["US"; "CA"] [] None) Ha Hd).
Defined.

Lemma Match_unparsed_host_witness :
  (AllowCountries (matcher ["US"] [] None) <> [] \/
   DenyCountries (matcher ["US"] [] None) <> []) /\
  ParseIP (remote_host (request "localhost:8080")) = None /\
  result (Match (request "localhost:8080") (matcher ["US"] [] None)) =
    Returns false /\
  lookups (events (Match (request "localhost:8080") (matcher ["US"] [] None)))
    = [].
Proof.
  assert (Hcfg : AllowCountries (matcher ["US"] [] None) <> [] \/
                 DenyCountries (matcher ["US"] [] None) <> []).
  { left. discriminate. }
  split; [exact Hcfg|]. split; [reflexivity|].
  exact (Match_unparsed_host (matcher ["US"] [] None)
           (request "localhost:8080") Hcfg eq_refl).
Defined.

Lemma Match_lookup_error_witness :
  (AllowCountries (matcher [] ["CN"] (Some "geo.log")) <> [] \/
   DenyCountries (matcher [] ["CN"] (Some "geo.log")) <> []) /\
  ParseIP (remote_host (request "203.0.113.9:5555")) =
    Some (203, 0, 113, 9)%N /\
  dbInst (matcher [] ["CN"] (Some "geo.log")) = Some sample /\
  Get_country_short sample (IP_String (203, 0, 113, 9)%N) =
    ({| Country_short := "" |}, Some (errors_New "unexpected EOF")) /\
  result (Match (request "203.0.113.9:5555")
            (matcher [] ["CN"] (Some "geo.log"))) = Returns false /\
  (forall allow deny,
     allow <> [] \/ deny <> [] ->
     result (Match (request "203.0.113.9:5555")
               (with_lists allow deny (matcher [] ["CN"] (Some "geo.log")))) =
       Returns false /\
     events (Match (request "203.0.113.9:5555")
               (with_lists allow deny (matcher [] ["CN"] (Some "geo.log")))) =
       events (Match (request "203.0.113.9:5555")
                 (matcher [] ["CN"] (Some "geo.log")))).
Proof.
  assert (Hcfg : AllowCountries (matcher [] ["CN"] (Some "geo.log")) <> [] \/
                 DenyCountries (matcher [] ["CN"] (Some "geo.log")) <> []).
  { right. discriminate. }
  split; [exact Hcfg|]. split; [reflexivity|]. split; [reflexivity|].
  split; [reflexivity|].
  exact (Match_lookup_error (matcher [] ["CN"] (Some "geo.log"))
           (request "203.0.113.9:5555") (203, 0, 113, 9)%N sample
           {| Country_short := "" |} (errors_New "unexpected EOF")
           Hcfg eq_refl eq_refl eq_refl).
Defined.

Lemma Match_logger_irrelevant_witness :
  dbInst (matcher ["US"] [] None) <> None /\
  result (Match (request "1.0.0.1:443")
            (set_logger (Some "geo.log") (matcher ["US"] [] None))) =
    result (Match (request "1.0.0.1:443")
              (set_logger None (matcher ["US"] [] None))) /\
  exists b,
    result (Match (request "1.0.0.1:443")
              (set_logger None (matcher ["US"] [] None))) = Returns b.
Proof.
  assert (Hdb : dbInst (matcher ["US"] [] None) <> None) by discriminate.
  split; [exact Hdb|].
  pose proof (Match_logger_irrelevant (matcher ["US"] [] None)
                (request "1.0.0.1:443") "geo.log") as H.
  split; [exact (proj1 H)|].
  exact (proj2 (proj2 (proj2 (proj2 H))) Hdb).
Defined.

Lemma Match_split_failure_witness :
  (forall s h p e', SplitHostPort s = (h, p, Some e') -> h = "") /\
  ParseIP "" = None /\
  (AllowCountries (matcher ["US"] [] None) <> [] \/
   DenyCountries (matcher ["US"] [] None) <> []) /\
  SplitHostPort (RemoteAddr (request "8.8.8.8")) =
    ("", "", Some (AddrError "missing port in address" "8.8.8.8")) /\
  result (Match (request "8.8.8.8") (matcher ["US"] [] None)) =
    Returns false /\
  lookups (events (Match (request "8.8.8.8") (matcher ["US"] [] None))) = [].
Proof.
  assert (Hcfg : AllowCountries (matcher ["US"] [] None) <> [] \/
                 DenyCountries (matcher ["US"] [] None) <> []).
  { left. discriminate. }
  split; [exact SplitHostPort_error_host|]. split; [exact ParseIP_empty|].
  split; [exact Hcfg|]. split; [reflexivity|].
  exact (Match_split_failure (matcher ["US"] [] None) (request "8.8.8.8")
           "" "" (AddrError "missing port in address" "8.8.8.8")
           SplitHostPort_error_host ParseIP_empty Hcfg eq_refl).
Defined.

End Runs.

(** * Configuration and lifecycle at work *)

Section ConfiguredRuns.

#[local] Existing Instance GoNet.libs.

Import GoNet.

(** From the tokens of a matcher block to the decision: the fresh module
    is configured, provisioned, and asked. *)
Example configure_provision_match :
  final (UnmarshalCaddyfile
           [["db_path"; "/srv/IP2LOCATION-LITE-DB1.BIN";
             "allow_countries"; "US"; "CA"; "log_path"; "geo.log"]]
           (New CaddyModule tt)) = configured ["US"; "CA"] [] "geo.log" /\
  final (Provision (configured ["US"; "CA"] [] "geo.log")) =
    matcher ["US"; "CA"] [] (Some "geo.log") /\
  result (Match (request "8.8.8.8:443")
            (matcher ["US"; "CA"] [] (Some "geo.log"))) = Returns true /\
  result (Match (request "114.114.114.114:443")
            (matcher ["US"; "CA"] [] (Some "geo.log"))) = Returns false.
Proof. repeat split; reflexivity. Qed.

Lemma UnmarshalCaddyfile_error_token_witness :
  result (UnmarshalCaddyfile [["db_path"; "/srv/db.bin"; "extra"]]
            (New CaddyModule tt)) =
    Returns (Some (unexpected_config_parameter "extra")) /\
  In "extra" (concat [["db_path"; "/srv/db.bin"; "extra"]]) /\
  is_keyword "extra" = false.
Proof.
  split; [reflexivity|].
  exact (UnmarshalCaddyfile_error_token [["db_path"; "/srv/db.bin"; "extra"]]
           (New CaddyModule tt) "extra" eq_refl).
Defined.

Lemma UnmarshalCaddyfile_reads_parameters_witness :
  concat [["db_path"; "/srv/db.bin"; "allow_countries"; "US"];
          ["CA"; "log_path"; "geo.log"]] =
    concat (map tokens [db_path "/srv/db.bin"; allow_countries ["US"; "CA"];
                        log_path "geo.log"]) /\
  (forall p v,
     In p [db_path "/srv/db.bin"; allow_countries ["US"; "CA"];
           log_path "geo.log"] ->
     In v (values p) -> is_keyword v = false) /\
  UnmarshalCaddyfile
    [["db_path"; "/srv/db.bin"; "allow_countries"; "US"];
     ["CA"; "log_path"; "geo.log"]] (New CaddyModule tt) =
  (Returns None,
   fold_left configure
     [db_path "/srv/db.bin"; allow_countries ["US"; "CA"]; log_path "geo.log"]
     (New CaddyModule tt), []).
Proof.
  assert (Hps : forall p v,
             In p [db_path "/srv/db.bin"; allow_countries ["US"; "CA"];
                   log_path "geo.log"] ->
             In v (values p) -> is_keyword v = false).
  { intros p v [<-|[<-|[<-|[]]]]; cbn; intros H;
      repeat (destruct H as [<-|H]; [reflexivity|]); contradiction. }
  split; [reflexivity|]. split; [exact Hps|].
  exact (UnmarshalCaddyfile_reads_parameters
           [["db_path"; "/srv/db.bin"; "allow_countries"; "US"];
            ["CA"; "log_path"; "geo.log"]]
           [db_path "/srv/db.bin"; allow_countries ["US"; "CA"];
            log_path "geo.log"]
           (New CaddyModule tt) eq_refl Hps).
Defined.

Lemma UnmarshalCaddyfile_stray_value_witness :
  concat [["db_path"; "/srv/db.bin"; "/srv/other.bin"; "allow_countries"; "US"]] =
    (concat (map tokens [db_path "/srv/db.bin"]) ++
     "/srv/other.bin" :: ["allow_countries"; "US"])%list /\
  (forall p v, In p [db_path "/srv/db.bin"] -> In v (values p) ->
     is_keyword v = false) /\
  open_list [db_path "/srv/db.bin"] = false /\
  is_keyword "/srv/other.bin" = false /\
  UnmarshalCaddyfile
    [["db_path"; "/srv/db.bin"; "/srv/other.bin"; "allow_countries"; "US"]]
    (New CaddyModule tt) =
  (Returns (Some (unexpected_config_parameter "/srv/other.bin")),
   fold_left configure [db_path "/srv/db.bin"] (New CaddyModule tt), []).
Proof.
  assert (Hps : forall p v, In p [db_path "/srv/db.bin"] -> In v (values p) ->
                       is_keyword v = false).
  { intros p v [<-|[]]; cbn; intros [<-|[]]; reflexivity. }
  split; [reflexivity|]. split; [exact Hps|].
  split; [reflexivity|]. split; [reflexivity|].
  exact (UnmarshalCaddyfile_stray_value
           [["db_path"; "/srv/db.bin"; "/srv/other.bin"; "allow_countries"; "US"]]
           [db_path "/srv/db.bin"] "/srv/other.bin" ["allow_countries"; "US"]
           (New CaddyModule tt) eq_refl Hps eq_refl eq_refl).
Defined.

Lemma UnmarshalCaddyfile_names_only_witness :
  (forall val, In val (concat [["db_path"; "allow_countries"]; ["log_path"]]) ->
     is_keyword val = true) /\
  UnmarshalCaddyfile [["db_path"; "allow_countries"]; ["log_path"]]
    (matcher ["US"] [] None) =
  (Returns None, matcher ["US"] [] None, []).
Proof.
  assert (Hd : forall val,
             In val (concat [["db_path"; "allow_countries"]; ["log_path"]]) ->
             is_keyword val = true).
  { intros val [<-|[<-|[<-|[]]]]; reflexivity. }
  split; [exact Hd|].
  exact (UnmarshalCaddyfile_names_only
           [["db_path"; "allow_countries"]; ["log_path"]]
           (matcher ["US"] [] None) Hd).
Defined.

Lemma UnmarshalCaddyfile_list_needs_name_witness :
  ~ In "allow_countries" (concat [["deny_countries"; "CN"; "RU"]]) /\
  AllowCountries (final (UnmarshalCaddyfile [["deny_countries"; "CN"; "RU"]]
                           (matcher ["US"] [] None))) =
  AllowCountries (matcher ["US"] [] None).
Proof.
  assert (Hno : ~ In "allow_countries" (concat [["deny_countries"; "CN"; "RU"]])).
  { intros [H|[H|[H|[]]]]; discriminate H. }
  split; [exact Hno|].
  exact (proj1 (UnmarshalCaddyfile_list_needs_name
                  [["deny_countries"; "CN"; "RU"]] (matcher ["US"] [] None))
           Hno).
Defined.

Lemma unlisted_module_admits_witness :
  ~ In "allow_countries" (concat [["db_path"; "/srv/db.bin"]]) /\
  ~ In "deny_countries" (concat [["db_path"; "/srv/db.bin"]]) /\
  Match (request "not-an-address")
    (final (UnmarshalCaddyfile [["db_path"; "/srv/db.bin"]] (New CaddyModule tt)))
  = (Returns true,
     final (UnmarshalCaddyfile [["db_path"; "/srv/db.bin"]] (New CaddyModule tt)),
     []).
Proof.
  assert (Ha : ~ In "allow_countries" (concat [["db_path"; "/srv/db.bin"]])).
  { intros [H|[H|[]]]; discriminate H. }
  assert (Hd : ~ In "deny_countries" (concat [["db_path"; "/srv/db.bin"]])).
  { intros [H|[H|[]]]; discriminate H. }
  split; [exact Ha|]. split; [exact Hd|].
  exact (unlisted_module_admits [["db_path"; "/srv/db.bin"]]
           (request "not-an-address") Ha Hd).
Defined.

Lemma UnmarshalCaddyfile_splits_witness :
  result (UnmarshalCaddyfile [["db_path"; "/srv/db.bin"]] (New CaddyModule tt)) =
    Returns None /\
  concat [["allow_countries"; "US"]] = "allow_countries" :: ["US"] /\
  is_keyword "allow_countries" = true /\
  UnmarshalCaddyfile ([["db_path"; "/srv/db.bin"]] ++ [["allow_countries"; "US"]])%list
    (New CaddyModule tt) =
  UnmarshalCaddyfile [["allow_countries"; "US"]]
    (final (UnmarshalCaddyfile [["db_path"; "/srv/db.bin"]] (New CaddyModule tt))).
Proof.
  split; [reflexivity|]. split; [reflexivity|]. split; [reflexivity|].
  exact (proj2 (UnmarshalCaddyfile_splits [["db_path"; "/srv/db.bin"]]
                  [["allow_countries"; "US"]] (New CaddyModule tt))
           "allow_countries" ["US"] eq_refl eq_refl eq_refl).
Defined.

Lemma Match_follows_checkAllowed_witness :
  (AllowCountries (matcher [] ["CN"] None) <> [] \/
   DenyCountries (matcher [] ["CN"] None) <> []) /\
  ParseIP (remote_host (request "114.114.114.114:443")) =
    Some (114, 114, 114, 114)%N /\
  dbInst (matcher [] ["CN"] None) = Some sample /\
  Get_country_short sample (IP_String (114, 114, 114, 114)%N) =
    ({| Country_short := "CN" |}, None) /\
  result (Match (request "114.114.114.114:443") (matcher [] ["CN"] None)) =
    result (checkAllowed "CN" [] ["CN"] (matcher [] ["CN"] None)) /\
  lookups (events (Match (request "114.114.114.114:443")
                     (matcher [] ["CN"] None))) =
    [(sample, "114.114.114.114")].
Proof.
  assert (Hcfg : AllowCountries (matcher [] ["CN"] None) <> [] \/
                 DenyCountries (matcher [] ["CN"] None) <> []).
  { right. discriminate. }
  split; [exact Hcfg|]. split; [reflexivity|]. split; [reflexivity|].
  split; [reflexivity|].
  exact (Match_follows_checkAllowed (matcher [] ["CN"] None)
           (request "114.114.114.114:443") (114, 114, 114, 114)%N sample
           {| Country_short := "CN" |} Hcfg eq_refl eq_refl eq_refl).
Defined.

Lemma Match_admission_witness :
  (AllowCountries (matcher ["US"] [] None) <> [] \/
   DenyCountries (matcher ["US"] [] None) <> []) /\
  result (Match (request "8.8.8.8:443") (matcher ["US"] [] None)) =
    Returns true /\
  exists addr db record,
    ParseIP (remote_host (request "8.8.8.8:443")) = Some addr /\
    dbInst (matcher ["US"] [] None) = Some db /\
    Get_country_short db (IP_String addr) = (record, None) /\
    result (checkAllowed (Country_short record)
              (AllowCountries (matcher ["US"] [] None))
              (DenyCountries (matcher ["US"] [] None))
              (matcher ["US"] [] None)) = Returns true.
Proof.
  assert (Hcfg : AllowCountries (matcher ["US"] [] None) <> [] \/
                 DenyCountries (matcher ["US"] [] None) <> []).
  { left. discriminate. }
  split; [exact Hcfg|]. split; [reflexivity|].
  exact (Match_admission (matcher ["US"] [] None) (request "8.8.8.8:443")
           Hcfg eq_refl).
Defined.

Lemma Match_panics_iff_witness :
  (AllowCountries (configured ["US"] [] "") <> [] \/
   DenyCountries (configured ["US"] [] "") <> []) /\
  dbInst (configured ["US"] [] "") = None /\
  ParseIP (remote_host (request "8.8.8.8:443")) = Some (8, 8, 8, 8)%N /\
  result (Match (request "8.8.8.8:443") (configured ["US"] [] "")) =
    Panics ptr_dbInst.
Proof.
  assert (Hcfg : AllowCountries (configured ["US"] [] "") <> [] \/
                 DenyCountries (configured ["US"] [] "") <> []).
  { left. discriminate. }
  split; [exact Hcfg|]. split; [reflexivity|]. split; [reflexivity|].
  exact (proj2 (Match_panics_iff (configured ["US"] [] "")
                  (request "8.8.8.8:443") ptr_dbInst)
           (conj eq_refl
              (conj Hcfg
                 (conj eq_refl (ex_intro _ (8, 8, 8, 8)%N eq_refl))))).
Defined.

Lemma Match_denial_logged_witness :
  logger (matcher ["US"] [] (Some "geo.log")) = Some "geo.log" /\
  result (Match (request "1.0.0.1:443") (matcher ["US"] [] (Some "geo.log"))) =
    Returns false /\
  exists lvl msg fields,
    In (lvl, msg, fields)
       (logs (events (Match (request "1.0.0.1:443")
                        (matcher ["US"] [] (Some "geo.log"))))) /\
    (lvl = WarnLevel /\ msg = "cannot parse IP address" \/
     lvl = WarnLevel /\ msg = "cannot lookup IP address" \/
     lvl = DebugLevel /\ msg = "Country not allowed").
Proof.
  split; [reflexivity|]. split; [reflexivity|].
  exact (Match_denial_logged (matcher ["US"] [] (Some "geo.log"))
           (request "1.0.0.1:443") "geo.log" eq_refl eq_refl).
Defined.

Lemma checkAllowed_blank_entries_witness :
  ["0"; ""] <> [] /\
  (forall c, In c ["0"; ""] -> c = "" \/ c = "0") /\
  result (checkAllowed "0" ["US"] ["0"; ""] (matcher ["US"] ["0"; ""] None)) =
    Returns true /\
  result (checkAllowed "0" ["0"; ""] [] (matcher ["0"; ""] [] None)) =
    Returns false.
Proof.
  assert (Hnil : ["0"; ""] <> []) by discriminate.
  assert (Hall : forall c, In c ["0"; ""] -> c = "" \/ c = "0").
  { intros c [<-|[<-|[]]]; [right|left]; reflexivity. }
  split; [exact Hnil|]. split; [exact Hall|]. split.
  - exact (proj1 (checkAllowed_blank_entries "0" ["US"] ["0"; ""]
                    (matcher ["US"] ["0"; ""] None)) Hnil Hall).
  - exact (proj2 (checkAllowed_blank_entries "0" ["0"; ""] ["0"; ""]
                    (matcher ["0"; ""] [] None)) Hnil Hall).
Defined.

Lemma checkAllowed_monotone_witness :
  ["CN"] <> [] /\ incl ["CN"] ["RU"; "CN"] /\
  result (checkAllowed "US" [] ["RU"; "CN"] (matcher [] ["CN"] None)) =
    Returns true /\
  result (checkAllowed "US" [] ["CN"] (matcher [] ["CN"] None)) = Returns true.
Proof.
  assert (Hnil : ["CN"] <> []) by discriminate.
  assert (Hincl : incl ["CN"] ["RU"; "CN"]).
  { intros c [<-|[]]. right; left; reflexivity. }
  split; [exact Hnil|]. split; [exact Hincl|]. split; [reflexivity|].
  exact (proj1 (checkAllowed_monotone "US" [] [] ["CN"] ["RU"; "CN"]
                  (matcher [] ["CN"] None)) Hnil Hincl eq_refl).
Defined.

Lemma Provision_succeeds_iff_witness :
  (LogPath (configured ["US"] [] "geo.log") = "" \/
   snd (NewLogger (LogPath (configured ["US"] [] "geo.log"))) = None) /\
  snd (OpenDB (DbPath (configured ["US"] [] "geo.log"))) = None /\
  result (Provision (configured ["US"] [] "geo.log")) = Returns None.
Proof.
  assert (Hlog : LogPath (configured ["US"] [] "geo.log") = "" \/
                 snd (NewLogger (LogPath (configured ["US"] [] "geo.log"))) = None).
  { right. reflexivity. }
  split; [exact Hlog|]. split; [reflexivity|].
  exact (proj2 (Provision_succeeds_iff (configured ["US"] [] "geo.log"))
           (conj Hlog eq_refl)).
Defined.

Lemma Provision_then_Match_witness :
  result (Provision (configured ["US"] [] "geo.log")) = Returns None /\
  fst (OpenDB (DbPath (configured ["US"] [] "geo.log"))) <> None /\
  exists b,
    result (Match (request "8.8.8.8:443")
              (final (Provision (configured ["US"] [] "geo.log")))) = Returns b.
Proof.
  assert (Hdb : fst (OpenDB (DbPath (configured ["US"] [] "geo.log"))) <> None)
    by discriminate.
  split; [reflexivity|]. split; [exact Hdb|].
  exact (Provision_then_Match (configured ["US"] [] "geo.log")
           (request "8.8.8.8:443") eq_refl Hdb).
Defined.


End ConfiguredRuns.

Section ReadOnlyRuns.

#[local] Existing Instance ReadOnly.libs.


(** Without a log file there is no dataset either, and [Match] faults. *)
Example Provision_read_only :
  dbInst (final (Provision (ReadOnly.configured "geo.log"))) = None /\
  result (Match {| RemoteAddr := "8.8.8.8:443" |}
            (final (Provision (ReadOnly.configured "geo.log")))) =
    Panics ptr_dbInst /\
  result (Provision (ReadOnly.configured "")) = Returns None.
Proof. repeat split; reflexivity. Qed.

End ReadOnlyRuns.
